(** * KMeans-CIQ: colour image quantisation by k-means (src/ciq.c)

    A shallow embedding of [ciq.c] and the properties of its clustering
    engine.

    Representation choices, all of them visible in the definitions below:
    - C [int] and [long] values are [Z].  Where the program computes with
      values it does not bound (the product of the header numbers, the
      differences and the sum of squares of [ciq_distance]) the result is
      reduced to the 32 or 64 bits of the type ([to_int], [to_long]): signed
      overflow is undefined in C and this is what the machine leaves.  The
      sums over the points stay far below 2^63 for any image an [int] size
      can describe and are left in [Z].
    - A division by zero ends the run: [Trapped].
    - C [double] values are IEEE 754 binary64 numbers, modelled by the
      Standard Library's [spec_float] with precision 53 and round to nearest
      even, so that [1.0 / n * s] is computed bit for bit as the program
      does.
    - An array is a list whose length is the allocated length: [points] has
      [size] elements and [centroids] has [K] elements ([wf_context]).
      Loops that walk an array front to back are recursions on the list.
    - What C leaves indeterminate (an uninitialised local, a read outside an
      array) is a field of [World]: theorems quantify over it. *)

From Stdlib Require Import ZArith Lia List Bool String.
From Stdlib Require Import Floats.SpecFloat.
From stdpp Require Import base tactics numbers list.

Open Scope Z_scope.

(** ** Constants of the program *)

Definition MAX_ITERS : nat := 100.
Definition EPSILON : Z := 8.

(** ** Machine integers and the end of a run *)

(** What a two's complement register of [bits] bits holds after an
    operation whose exact result is [z]. *)
Definition wrap (bits z : Z) : Z :=
  (z + 2 ^ (bits - 1)) mod 2 ^ bits - 2 ^ (bits - 1).

(** [int] is 32 bits and [long] is 64 bits (LP64). *)
Definition to_int (z : Z) : Z := wrap 32 z.
Definition to_long (z : Z) : Z := wrap 64 z.

Definition INT_MAX : Z := 2147483647.

(** A call either returns or the process is killed by the integer division
    by zero of [rand() % ctx->size]. *)
Inductive outcome (A : Type) : Type :=
| Returned (a : A)
| Trapped.

Arguments Returned {A} a.
Arguments Trapped {A}.

(** ** binary64 arithmetic *)

Module Double.

Definition prec : Z := 53.
Definition emax : Z := 1024.

Definition double : Type := spec_float.

(** Conversion of an integer to [double] (exact below 2^53). *)
Definition of_Z (z : Z) : double := binary_normalize prec emax z 0 false.

Definition mul : double -> double -> double := SFmul prec emax.
Definition div : double -> double -> double := SFdiv prec emax.

(** Conversion of a [double] to an integer type: truncation toward zero.
    The conversion of an infinity or a NaN is undefined in C; the model
    returns 0 there. *)
Definition to_Z (f : double) : Z :=
  match f with
  | S754_finite s m e =>
      let v := if 0 <=? e then Z.pos m * 2 ^ e else Z.pos m / 2 ^ (- e) in
      if s then - v else v
  | _ => 0
  end.

End Double.

(** ** Data model *)

Record Point : Type := mkPoint { r : Z; g : Z; b : Z; cluster : Z }.

Definition Centroid : Type := Point.

Record Context : Type := mkContext {
  width : Z;
  height : Z;
  size : Z;
  K : Z;
  points : list Point;
  centroids : list Centroid
}.

(** The image file as [fscanf] and [fread] see it: the four header tokens
    and [data], the bytes that follow the one character which ends the
    header; each of them is a byte. *)
Record PPM : Type := mkPPM {
  format : string;
  hdr_width : Z;
  hdr_height : Z;
  maxval : Z;
  data : list Z
}.

(** The written image: the two numbers printed in the header
    ["P6\n%d %d\n255\n"] and the bytes that follow. *)
Record Image : Type := mkImage {
  out_width : Z;
  out_height : Z;
  body : list Z
}.

(** The files as the run leaves them: [output] is the file named by the
    output argument when it holds the image, [palette] is [palette.pal];
    [None] is a file that was not created or does not hold that content. *)
Record Files : Type := mkFiles {
  output : option Image;
  palette : option (list Z)
}.

(** Everything outside the program that a run depends on. *)
Record World : Type := mkWorld {
  input_file : option PPM;        (* None: fopen(filename, "rb") fails *)
  malloc_ctx_ok : bool;
  malloc_points_ok : bool;
  malloc_centroids_ok : bool;
  malloc_distances_ok : bool;
  fopen_output_ok : bool;
  fopen_palette_ok : bool;
  output_is_palette : bool;       (* the output argument names palette.pal *)
  rand : nat -> Z;                (* the n-th value returned by rand() *)
  RAND_MAX : Z;                   (* <stdlib.h> *)
  indet_byte : nat -> Z;          (* the local of the n-th fread, when it
                                     reads nothing *)
  indet_new : nat -> Centroid;    (* [new] on entry to the n-th update *)
  indet_read : Point              (* a read outside an array *)
}.

Definition set_cluster (p : Point) (j : Z) : Point :=
  mkPoint (r p) (g p) (b p) j.

Definition set_points (ctx : Context) (ps : list Point) : Context :=
  mkContext (width ctx) (height ctx) (size ctx) (K ctx) ps (centroids ctx).

Definition set_centroids (ctx : Context) (cs : list Centroid) : Context :=
  mkContext (width ctx) (height ctx) (size ctx) (K ctx) (points ctx) cs.

(** [a[i]] for a C index; [oob] stands for what a read outside the array
    yields. *)
Definition at_index {A : Type} (a : list A) (i : Z) (oob : A) : A :=
  if (0 <=? i) && (i <? Z.of_nat (length a)) then nth (Z.to_nat i) a oob
  else oob.

Definition zero_point : Point := mkPoint 0 0 0 0.

(** The representation invariant established by [ciq_init]. *)
Definition wf_context (ctx : Context) : Prop :=
  Z.of_nat (length (points ctx)) = size ctx /\
  Z.of_nat (length (centroids ctx)) = K ctx.

(** ** ciq_distance *)

(** The differences are [int] subtractions stored in [long]; the squares
    and their sum are [long] operations. *)
Definition ciq_distance (p1 : Point) (p2 : Centroid) : Z :=
  let dr := to_int (r p1 - r p2) in
  let dg := to_int (g p1 - g p2) in
  let db := to_int (b p1 - b p2) in
  to_long (dr * dr + dg * dg + db * db).

(** ** ciq_init *)

(** [isspace] in the C locale: tab, line feed, vertical tab, form feed,
    carriage return and space. *)
Definition isspace (c : Z) : bool := ((9 <=? c) && (c <=? 13)) || (c =? 32).

(** The format of [fscanf] ends in a white-space directive, which consumes
    the character that ends the header and every white-space byte after
    it: the first bytes of [data] are lost when they are white space. *)
Fixpoint skip_space (bytes : list Z) : list Z :=
  match bytes with
  | c :: rest => if isspace c then skip_space rest else bytes
  | [] => []
  end.

(** What an [unsigned char] holds. *)
Definition to_uchar (z : Z) : Z := z mod 256.

(** One [fread(&x, 1, 1, file)]: the next byte, or at the end of the file
    the indeterminate content [indet] of the local [x]. *)
Definition fread1 (indet : Z) (bytes : list Z) : Z * list Z :=
  match bytes with
  | x :: rest => (x, rest)
  | [] => (indet, [])
  end.

(** The read loop from the [pos]-th [fread] on; the three locals are
    [unsigned char] and each has its own content when nothing is read (on
    the usual compilers, the byte the same local received for the pixel
    before). *)
Fixpoint read_points (indet : nat -> Z) (pos n : nat) (bytes : list Z)
    : list Point :=
  match n with
  | O => []
  | S n' =>
      let '(cr, bytes1) := fread1 (indet pos) bytes in
      let '(cg, bytes2) := fread1 (indet (S pos)) bytes1 in
      let '(cb, bytes3) := fread1 (indet (S (S pos))) bytes2 in
      mkPoint (to_uchar cr) (to_uchar cg) (to_uchar cb) (-1)
        :: read_points indet (S (S (S pos))) n' bytes3
  end.

Definition ciq_init (w : World) (k : Z) : option Context :=
  if negb (malloc_ctx_ok w) then None
  else
    match input_file w with
    | None => None
    | Some file =>
        if negb (String.eqb (format file) "P6") || negb (maxval file =? 255)
        then None
        else
          let sz := to_int (hdr_width file * hdr_height file) in
          if negb (malloc_points_ok w) || negb (malloc_centroids_ok w)
          then None
          else
            Some (mkContext (hdr_width file) (hdr_height file) sz k
                    (read_points (indet_byte w) 0 (Z.to_nat sz)
                       (skip_space (data file)))
                    (repeat zero_point (Z.to_nat k)))
    end.

(** ** ciq_init_centroids *)

(** [(Centroid){p.r, p.g, p.b}]: the omitted member is zero. *)
Definition centroid_of (p : Point) : Centroid := mkPoint (r p) (g p) (b p) 0.

Definition sum_Z (l : list Z) : Z := fold_left Z.add l 0.

(** The second inner loop: the first point at which the running sum reaches
    [random_choice]; [None] when the loop ends without a [break]. *)
Fixpoint select_point (cumulative random_choice : Z)
    (distances : list Z) (pts : list Point) : option Point :=
  match distances, pts with
  | d :: distances', p :: pts' =>
      let cumulative' := cumulative + d in
      if random_choice <=? cumulative' then Some p
      else select_point cumulative' random_choice distances' pts'
  | _, _ => None
  end.

(** The weights of the first inner loop, for the centroid chosen last. *)
Definition seed_distances (pts : list Point) (prev : Centroid) : list Z :=
  map (fun p => ciq_distance p prev) pts.

Definition seed_choice (w : World) (i : nat) (total_distance : Z) : Z :=
  Double.to_Z
    (Double.mul (Double.div (Double.of_Z (rand w i)) (Double.of_Z (RAND_MAX w)))
                (Double.of_Z total_distance)).

(** One round of [for (i = 1; i < ctx->K; i++)]. *)
Definition seed_step (w : World) (pts : list Point) (i : nat)
    (cs : list Centroid) : list Centroid :=
  let distances := seed_distances pts (nth (i - 1) cs (indet_read w)) in
  let total_distance := sum_Z distances in
  let random_choice := seed_choice w i total_distance in
  match select_point 0 random_choice distances pts with
  | Some p => <[ i := centroid_of p ]> cs
  | None => cs
  end.

Fixpoint seed_loop (w : World) (pts : list Point) (n i : nat)
    (cs : list Centroid) : list Centroid :=
  match n with
  | O => cs
  | S n' => seed_loop w pts n' (S i) (seed_step w pts i cs)
  end.

(** [Returned None] is the return value [false]; [rand() % ctx->size]
    divides by zero when the image has no pixel. *)
Definition ciq_init_centroids (w : World) (ctx : Context)
    : outcome (option Context) :=
  if negb (malloc_distances_ok w) then Returned None
  else if size ctx =? 0 then Trapped
  else
    let chosen_index := Z.rem (rand w 0%nat) (size ctx) in
    let first :=
      centroid_of (at_index (points ctx) chosen_index (indet_read w)) in
    let cs0 := <[ 0%nat := first ]> (centroids ctx) in
    Returned (Some (set_centroids ctx
                      (seed_loop w (points ctx) (Z.to_nat (K ctx) - 1) 1 cs0))).

(** ** ciq_clustering *)

(** [for (j = 1; j < ctx->K; j++)] over the centroids from index [j] on. *)
Fixpoint nearest_from (p : Point) (cs : list Centroid) (j : Z)
    (mindist label : Z) : Z :=
  match cs with
  | [] => label
  | c :: cs' =>
      let curdist := ciq_distance p c in
      if curdist <? mindist then nearest_from p cs' (j + 1) curdist j
      else nearest_from p cs' (j + 1) mindist label
  end.

(** For [K <= 0] the program reads [centroids[0]] outside the array; the
    inner loop does not run and the label is 0 whatever was read. *)
Definition assign (cs : list Centroid) (p : Point) : Point :=
  match cs with
  | [] => set_cluster p 0
  | c0 :: rest => set_cluster p (nearest_from p rest 1 (ciq_distance p c0) 0)
  end.

Definition ciq_clustering (ctx : Context) : Context :=
  set_points ctx (map (assign (centroids ctx)) (points ctx)).

(** ** ciq_update_centroids *)

(** The four accumulator arrays, each of length [K]. *)
Record Sums : Type := mkSums {
  sum_r : list Z;
  sum_g : list Z;
  sum_b : list Z;
  cluster_size : list Z
}.

(** [a[j] += v].  For [j] outside the array the C statement writes outside
    it (undefined); the model leaves the array as it is.  [ciq_quantize]
    only updates after [ciq_clustering], which makes every label an index. *)
Definition add_at (j : Z) (v : Z) (a : list Z) : list Z :=
  if (0 <=? j) && (j <? Z.of_nat (length a))
  then <[ Z.to_nat j := nth (Z.to_nat j) a 0 + v ]> a
  else a.

Definition tally (s : Sums) (p : Point) : Sums :=
  let j := cluster p in
  mkSums (add_at j (r p) (sum_r s)) (add_at j (g p) (sum_g s))
         (add_at j (b p) (sum_b s)) (add_at j 1 (cluster_size s)).

Definition zero_sums (k : nat) : Sums :=
  mkSums (repeat 0 k) (repeat 0 k) (repeat 0 k) (repeat 0 k).

Definition accumulate (k : nat) (pts : list Point) : Sums :=
  fold_left tally pts (zero_sums k).

(** [w[i] = 1.0 / cluster_size[i]] *)
Definition factor (n : Z) : Double.double :=
  Double.div (Double.of_Z 1) (Double.of_Z n).

(** [new.r = w[i] * sum_r[i]], converted to [int]. *)
Definition scaled (wi : Double.double) (s : Z) : Z :=
  Double.to_Z (Double.mul wi (Double.of_Z s)).

(** The value of [new] after the [if] of round [i]. *)
Definition next_new (s : Sums) (ws : list Double.double) (i : nat)
    (new : Centroid) : Centroid :=
  if 0 <? nth i (cluster_size s) 0 then
    let wi := nth i ws (factor 0) in
    mkPoint (scaled wi (nth i (sum_r s) 0)) (scaled wi (nth i (sum_g s) 0))
            (scaled wi (nth i (sum_b s) 0)) (cluster new)
  else new.

(** [for (i = 0; i < ctx->K; i++)] with [n] rounds left: the local [new],
    the flag [changed] and the centroid array are the loop state. *)
Fixpoint update_loop (s : Sums) (ws : list Double.double) (n i : nat)
    (new : Centroid) (changed : bool) (cs : list Centroid)
    : bool * list Centroid :=
  match n with
  | O => (changed, cs)
  | S n' =>
      let new' := next_new s ws i new in
      let changed' :=
        if EPSILON <? ciq_distance (nth i cs zero_point) new' then true
        else changed in
      update_loop s ws n' (S i) new' changed' (<[ i := new' ]> cs)
  end.

(** [new0] is the indeterminate content of the local [new] on entry. *)
Definition ciq_update_centroids (new0 : Centroid) (ctx : Context)
    : bool * Context :=
  let k := Z.to_nat (K ctx) in
  let s := accumulate k (points ctx) in
  let ws := map factor (cluster_size s) in
  let '(changed, cs) := update_loop s ws k 0 new0 false (centroids ctx) in
  (changed, set_centroids ctx cs).

(** ** ciq_quantize *)

(** [for (i = 0; i < MAX_ITERS; i++)] with [n] rounds left; the second
    component counts the rounds that were run. *)
Fixpoint iterate (w : World) (n i : nat) (ctx : Context) : Context * nat :=
  match n with
  | O => (ctx, i)
  | S n' =>
      let ctx1 := ciq_clustering ctx in
      let '(changed, ctx2) := ciq_update_centroids (indet_new w i) ctx1 in
      if changed then iterate w n' (S i) ctx2 else (ctx2, S i)
  end.

Definition ciq_quantize (w : World) (ctx : Context)
    : outcome (bool * Context) :=
  match ciq_init_centroids w ctx with
  | Trapped => Trapped
  | Returned None => Returned (false, ctx)
  | Returned (Some ctx1) => Returned (true, fst (iterate w MAX_ITERS 0 ctx1))
  end.

(** ** ciq_remap *)

Definition rgb_bytes (c : Centroid) : list Z :=
  [to_uchar (r c); to_uchar (g c); to_uchar (b c)].

Definition pixel_bytes (w : World) (cs : list Centroid) (p : Point) : list Z :=
  rgb_bytes (at_index cs (cluster p) (indet_read w)).

Definition image_of (w : World) (ctx : Context) : Image :=
  mkImage (width ctx) (height ctx)
          (flat_map (pixel_bytes w (centroids ctx)) (points ctx)).

Definition palette_of (ctx : Context) : list Z :=
  flat_map rgb_bytes (centroids ctx).

(** The image is written and closed before [palette.pal] is opened.  When
    the output argument names [palette.pal], opening it again for writing
    empties the file: the image is gone and the file holds the palette. *)
Definition ciq_remap (w : World) (ctx : Context) : bool * Files :=
  if negb (fopen_output_ok w) then (false, mkFiles None None)
  else if negb (fopen_palette_ok w)
       then (false, mkFiles (Some (image_of w ctx)) None)
       else (true,
             mkFiles (if output_is_palette w then None
                      else Some (image_of w ctx))
                     (Some (palette_of ctx))).

(** ** ciq_quanization and main *)

Definition ciq_quanization (w : World) (k : Z) : outcome (bool * Files) :=
  match ciq_init w k with
  | None => Returned (false, mkFiles None None)
  | Some ctx =>
      match ciq_quantize w ctx with
      | Trapped => Trapped
      | Returned (_, ctx') => Returned (true, snd (ciq_remap w ctx'))
      end
  end.

(** The exit status of [main] once the arguments are parsed, and the files
    left behind. *)
Definition main (w : World) (k : Z) : outcome (Z * Files) :=
  match ciq_quanization w k with
  | Trapped => Trapped
  | Returned (ok, files) => Returned (if ok then 0 else 1, files)
  end.

(** * Definitions used in the statements

    The notions the properties are stated with: the label and the clusters
    as the specification defines them, the values the loops go through,
    and the concrete runs on which the program is evaluated. *)

(** The label the specification asks for: the smallest index among the
    centroids at minimum squared distance from [p]. *)
Definition nearest_label (cs : list Centroid) (p : Point) (j : Z) : Prop :=
  0 <= j < Z.of_nat (length cs) /\
  exists c, cs !! Z.to_nat j = Some c /\
    forall (j' : nat) (c' : Centroid), cs !! j' = Some c' ->
      ciq_distance p c <= ciq_distance p c' /\
      (Z.of_nat j' < j -> ciq_distance p c < ciq_distance p c').

Definition color (p : Point) : Z * Z * Z := (r p, g p, b p).

(** [ctx'] has the dimensions, the [K], the point colours and the number of
    points and centroids of [ctx]. *)
Definition same_frame (ctx ctx' : Context) : Prop :=
  width ctx' = width ctx /\ height ctx' = height ctx /\
  size ctx' = size ctx /\ K ctx' = K ctx /\
  map color (points ctx') = map color (points ctx) /\
  length (centroids ctx') = length (centroids ctx).

(** One round of the loop of [ciq_quantize]. *)
Definition round (w : World) (i : nat) (ctx : Context) : bool * Context :=
  ciq_update_centroids (indet_new w i) (ciq_clustering ctx).

(** Every label is an index into the centroid array. *)
Definition labelled (ctx : Context) : Prop :=
  Forall (fun p => 0 <= cluster p < K ctx) (points ctx).

(** The cluster of label [j], as the specification defines it: the points
    whose [cluster] is [j]. *)
Definition members (pts : list Point) (j : Z) : list Point :=
  List.filter (fun p => cluster p =? j) pts.

Definition count (pts : list Point) (j : Z) : Z :=
  Z.of_nat (length (members pts j)).

Definition channel_sum (f : Point -> Z) (pts : list Point) (j : Z) : Z :=
  sum_Z (map f (members pts j)).

(** The four arrays of [s] have [k] elements. *)
Definition sums_length (k : nat) (s : Sums) : Prop :=
  length (sum_r s) = k /\ length (sum_g s) = k /\
  length (sum_b s) = k /\ length (cluster_size s) = k.

(** The successive values of the local [new]: [n] rounds from round [i]. *)
Fixpoint news (s : Sums) (ws : list Double.double) (n i : nat)
    (new : Centroid) : list Centroid :=
  match n with
  | O => []
  | S n' =>
      let new' := next_new s ws i new in
      new' :: news s ws n' (S i) new'
  end.

(** The value of [new] at the end of round [i], from [new0] on entry. *)
Fixpoint new_at (s : Sums) (ws : list Double.double) (new0 : Centroid)
    (i : nat) : Centroid :=
  match i with
  | O => next_new s ws 0 new0
  | S i' => next_new s ws (S i') (new_at s ws new0 i')
  end.

Definition moved (old_new : Centroid * Centroid) : bool :=
  EPSILON <? ciq_distance (fst old_new) (snd old_new).

(** The accumulators and the factors of an update of [ctx]. *)
Definition sums_of (ctx : Context) : Sums :=
  accumulate (Z.to_nat (K ctx)) (points ctx).

Definition factors_of (ctx : Context) : list Double.double :=
  map factor (cluster_size (sums_of ctx)).

(** The centroid written at index [i] by an update of [ctx]. *)
Definition written (new0 : Centroid) (ctx : Context) (i : nat) : Centroid :=
  new_at (sums_of ctx) (factors_of ctx) new0 i.

(** The mean as the program computes it: the sum times the factor
    [1.0 / count], truncated. *)
Definition scaled_mean (n s : Z) : Z := scaled (factor n) s.

(** The context after the first [n] rounds. *)
Fixpoint rounds (w : World) (n : nat) (ctx : Context) : Context :=
  match n with
  | O => ctx
  | S n' => snd (round w n' (rounds w n' ctx))
  end.

(** The three bytes of entry [i] of a file of byte triples. *)
Definition triple_at (bytes : list Z) (i : nat) : list Z :=
  take 3 (drop (3 * i) bytes).

Module Runs.

(** An image of [wd] by [ht] pixels whose red channel is given and whose
    green and blue channels are zero. *)
Definition red_image (wd ht : Z) (reds : list Z) : PPM :=
  mkPPM "P6" wd ht 255 (flat_map (fun x => [x; 0; 0]) reds).

(** A world in which every allocation and every [fopen] succeeds and the
    output is not [palette.pal]. *)
Definition world (file : PPM) (draws : nat -> Z) (new : nat -> Centroid)
    : World :=
  mkWorld (Some file) true true true true true true false draws 2147483647
          (fun _ => 0) new zero_point.

(** One pixel; the output file cannot be opened. *)
Definition output_unwritable : World :=
  mkWorld (Some (mkPPM "P6" 1 1 255 [100; 20; 30])) true true true true
          false true false (fun _ => 0) 2147483647 (fun _ => 0)
          (fun _ => zero_point) zero_point.

(** One pixel; [palette.pal] cannot be opened. *)
Definition palette_unwritable : World :=
  mkWorld (Some (mkPPM "P6" 1 1 255 [100; 20; 30])) true true true true
          true false false (fun _ => 0) 2147483647 (fun _ => 0)
          (fun _ => zero_point) zero_point.

(** One pixel; the buffer [distances] cannot be allocated.  [stray] is
    what the read of [centroids[-1]] in [ciq_remap] yields. *)
Definition seeder_fails (stray : Centroid) : World :=
  mkWorld (Some (mkPPM "P6" 1 1 255 [100; 20; 30])) true true true false
          true true false (fun _ => 0) 2147483647 (fun _ => 0)
          (fun _ => zero_point) stray.

(** Three pixels of red 0, 10 and 1, [K = 3]; the draws pick pixel 0,
    then a point at half of the first total, then a point at six tenths
    of the second. *)
Definition spread : World :=
  world (red_image 3 1 [0; 10; 1])
        (fun n => match n with
                  | O => 0
                  | S O => 1073741823
                  | _ => 1288490188
                  end)
        (fun _ => zero_point).

Definition spread_points : list Point :=
  [mkPoint 0 0 0 (-1); mkPoint 10 0 0 (-1); mkPoint 1 0 0 (-1)].

(** The centroids of [spread] after round 1 of the seeding. *)
Definition spread_two : list Centroid :=
  [mkPoint 0 0 0 0; mkPoint 10 0 0 0; zero_point].

(** Three pixels of red 110, 110 and 120, [K = 2], every draw 0: both
    centroids are seeded with the first pixel. *)
Definition twins (new : nat -> Centroid) : World :=
  world (red_image 3 1 [110; 110; 120]) (fun _ => 0) new.

(** [twins] after the seeding and the first pass of the Assigner. *)
Definition twins_assigned : Context :=
  mkContext 3 1 3 2
    [mkPoint 110 0 0 0; mkPoint 110 0 0 0; mkPoint 120 0 0 0]
    [mkPoint 110 0 0 0; mkPoint 110 0 0 0].

(** Seven by seven pixels, every byte 1, [K = 1]. *)
Definition uniform : World :=
  world (mkPPM "P6" 7 7 255 (repeat 1 147)) (fun _ => 0)
        (fun _ => zero_point).

(** [uniform] after the seeding and the first pass of the Assigner. *)
Definition uniform_assigned : Context :=
  mkContext 7 7 49 1 (repeat (mkPoint 1 1 1 0) 49) [mkPoint 1 1 1 0].

(** Eight pixels, [K = 3]; the draws seed the centroids with the reds
    51, 0 and 250.  After the first update no point is nearest to
    centroid 0. *)
Definition drained (new : Centroid) : World :=
  world (red_image 8 1 [51; 149; 0; 25; 25; 250; 151; 151])
        (fun n => match n with
                  | O => 0
                  | S O => 322122547
                  | _ => 1073741823
                  end)
        (fun _ => new).

(** [twins] as loaded by [ciq_init] and as seeded. *)
Definition twins_loaded : Context :=
  mkContext 3 1 3 2
    [mkPoint 110 0 0 (-1); mkPoint 110 0 0 (-1); mkPoint 120 0 0 (-1)]
    [zero_point; zero_point].

Definition twins_seeded : Context :=
  mkContext 3 1 3 2
    [mkPoint 110 0 0 (-1); mkPoint 110 0 0 (-1); mkPoint 120 0 0 (-1)]
    [mkPoint 110 0 0 0; mkPoint 110 0 0 0].

(** Two points, each next to one of two centroids. *)
Definition pair : Context :=
  mkContext 2 1 2 2
    [mkPoint 0 0 0 (-1); mkPoint 9 9 9 (-1)]
    [mkPoint 1 1 1 0; mkPoint 8 8 8 0].

End Runs.

(** The weight the specification gives a point: its squared distance to
    the nearest of the centroids chosen so far. *)
Definition nearest_distance (chosen : list Centroid) (p : Point) : Z :=
  match map (ciq_distance p) chosen with
  | [] => 0
  | d :: ds => fold_left Z.min ds d
  end.

Definition spec_seed_distances (pts : list Point) (chosen : list Centroid)
    : list Z :=
  map (nearest_distance chosen) pts.

(** The round for centroid [i] as the specification words it: the weights
    are taken against the centroids [0 .. i-1]; the threshold and the scan
    are those of [seed_step]. *)
Definition spec_seed_step (w : World) (pts : list Point) (i : nat)
    (cs : list Centroid) : list Centroid :=
  let distances := spec_seed_distances pts (take i cs) in
  let total := sum_Z distances in
  let t := seed_choice w i total in
  match select_point 0 t distances pts with
  | Some p => <[ i := centroid_of p ]> cs
  | None => cs
  end.

(** ** main, with its arguments *)

(** [main] from [argv[1]] on.  With fewer than two arguments ([argc < 3]) it
    prints the usage and returns 1.  [K] is [atoi(argv[3])] when there is a
    third argument and 256 otherwise; [atoi] belongs to the C library and is
    a parameter.  The two file names reach the run through [World]; names
    of 256 bytes or more overflow the buffers [input] and [output]
    (undefined) and are outside the model. *)
Definition main_argv (atoi : string -> Z) (w : World) (args : list string)
    : outcome (Z * Files) :=
  match args with
  | _ :: _ :: rest =>
      let k := match rest with
               | [] => 256
               | a :: _ => atoi a
               end in
      main w k
  | _ => Returned (1, mkFiles None None)
  end.

(** The three channels of a point, as the bytes of the file give them. *)
Definition channels (p : Point) : list Z := [r p; g p; b p].

(** The channels of [p] are bytes. *)
Definition byte_color (p : Point) : Prop :=
  0 <= r p <= 255 /\ 0 <= g p <= 255 /\ 0 <= b p <= 255.

(** The running sum of the first [j + 1] weights. *)
Definition running_sum (distances : list Z) (j : nat) : Z :=
  sum_Z (take (S j) distances).

(** The centroid array when round [i] of the loop of the Seeder starts:
    centroid 0 is written and the rounds 1 to [i - 1] have run. *)
Definition seeded_before (w : World) (ctx : Context) (i : nat)
    : list Centroid :=
  let chosen_index := Z.rem (rand w 0%nat) (size ctx) in
  let first :=
    centroid_of (at_index (points ctx) chosen_index (indet_read w)) in
  seed_loop w (points ctx) (i - 1) 1 (<[ 0%nat := first ]> (centroids ctx)).

(** The point at which the scan of round [i] stops, if it stops. *)
Definition scan (w : World) (ctx : Context) (i : nat) : option Point :=
  let distances :=
    seed_distances (points ctx)
      (nth (i - 1) (seeded_before w ctx i) (indet_read w)) in
  select_point 0 (seed_choice w i (sum_Z distances)) distances (points ctx).

(** Further concrete inputs. *)
Module Cases.

(** Two pixels announced, one present, of colour (7, 8, 9); where nothing
    is read the three locals still hold the bytes of the pixel before. *)
Definition truncated : World :=
  mkWorld (Some (mkPPM "P6" 2 1 255 [7; 8; 9])) true true true true
          true true false (fun _ => 0) 2147483647
          (fun n => match n with
                    | 3%nat => 7
                    | 4%nat => 8
                    | _ => 9
                    end)
          (fun _ => zero_point) zero_point.

Definition truncated_loaded : Context :=
  mkContext 2 1 2 1 [mkPoint 7 8 9 (-1); mkPoint 7 8 9 (-1)] [zero_point].

(** Two pixels whose colours are the two centroids, in the other order. *)
Definition exact : Context :=
  mkContext 2 1 2 2
    [mkPoint 8 8 8 (-1); mkPoint 1 1 1 (-1)]
    [mkPoint 1 1 1 0; mkPoint 8 8 8 0].

(** [Runs.twins] with an output argument that names [palette.pal]. *)
Definition clobbered : World :=
  mkWorld (Some (Runs.red_image 3 1 [110; 110; 120])) true true true true
          true true true (fun _ => 0) 2147483647 (fun _ => 0)
          (fun _ => zero_point) zero_point.

(** A header that announces no pixel. *)
Definition empty_image : World :=
  Runs.world (mkPPM "P6" 0 5 255 []) (fun _ => 0) (fun _ => zero_point).


End Cases.

(** * Properties *)

(** ** The Assigner *)

Lemma nearest_from_spec (p : Point) (rest pre : list Centroid)
    (label : Z) (c : Centroid) :
  pre !! Z.to_nat label = Some c ->
  0 <= label ->
  (forall (j' : nat) (c' : Centroid), pre !! j' = Some c' ->
     ciq_distance p c <= ciq_distance p c' /\
     (Z.of_nat j' < label -> ciq_distance p c < ciq_distance p c')) ->
  nearest_label (pre ++ rest) p
    (nearest_from p rest (Z.of_nat (length pre)) (ciq_distance p c) label).
Proof.
  revert pre label c.
  induction rest as [|c1 rest IH]; intros pre label c Hl H0 Hmin; simpl.
  - rewrite app_nil_r. split.
    + apply lookup_lt_Some in Hl. lia.
    + exists c. split; [exact Hl | exact Hmin].
  - assert (Hlen : (Z.to_nat label < length pre)%nat)
      by (eapply lookup_lt_Some; exact Hl).
    replace (Z.of_nat (length pre) + 1) with (Z.of_nat (length (pre ++ [c1])))
      by (rewrite length_app; simpl; lia).
    replace (pre ++ c1 :: rest) with ((pre ++ [c1]) ++ rest)
      by (rewrite <- app_assoc; reflexivity).
    destruct (ciq_distance p c1 <? ciq_distance p c) eqn:Hlt.
    + apply Z.ltb_lt in Hlt.
      apply IH.
      * rewrite Nat2Z.id. rewrite lookup_app_r by lia.
        replace (length pre - length pre)%nat with 0%nat by lia. reflexivity.
      * lia.
      * intros j' c' Hj'.
        destruct (decide (j' < length pre)%nat) as [Hin|Hout].
        -- rewrite lookup_app_l in Hj' by exact Hin.
           destruct (Hmin j' c' Hj') as [Hle _]. lia.
        -- rewrite lookup_app_r in Hj' by lia.
           destruct (j' - length pre)%nat as [|k] eqn:Hk; simpl in Hj'.
           ++ inversion Hj'; subst c'. split; [lia | intros; lia].
           ++ discriminate.
    + apply Z.ltb_ge in Hlt.
      apply IH.
      * rewrite lookup_app_l by exact Hlen. exact Hl.
      * exact H0.
      * intros j' c' Hj'.
        destruct (decide (j' < length pre)%nat) as [Hin|Hout].
        -- rewrite lookup_app_l in Hj' by exact Hin. apply Hmin. exact Hj'.
        -- rewrite lookup_app_r in Hj' by lia.
           destruct (j' - length pre)%nat as [|k] eqn:Hk; simpl in Hj'.
           ++ inversion Hj'; subst c'. split; [lia | intros; lia].
           ++ discriminate.
Qed.

Lemma assign_nearest (cs : list Centroid) (p : Point) :
  cs <> [] -> nearest_label cs p (cluster (assign cs p)).
Proof.
  destruct cs as [|c0 rest]; [congruence | intros _].
  unfold assign, set_cluster; simpl cluster.
  apply (nearest_from_spec p rest [c0] 0 c0).
  - reflexivity.
  - lia.
  - intros [|j'] c' Hj'; simpl in Hj'.
    + inversion Hj'; subst c'. split; [lia | intros; lia].
    + discriminate.
Qed.


Lemma nearest_label_unique (cs : list Centroid) (p : Point) (j1 j2 : Z) :
  nearest_label cs p j1 -> nearest_label cs p j2 -> j1 = j2.
Proof.
  intros [[H1 _] (c1 & Hc1 & Hm1)] [[H2 _] (c2 & Hc2 & Hm2)].
  destruct (Hm1 _ _ Hc2) as [Hle1 Hlt1].
  destruct (Hm2 _ _ Hc1) as [Hle2 Hlt2].
  rewrite Z2Nat.id in Hlt1, Hlt2 by assumption.
  destruct (Z.lt_trichotomy j1 j2) as [Hlt|[Heq|Hgt]]; [|exact Heq|].
  - specialize (Hlt2 Hlt). lia.
  - specialize (Hlt1 Hgt). lia.
Qed.

(** ** What every operation leaves alone *)

Lemma same_frame_refl (ctx : Context) : same_frame ctx ctx.
Proof. unfold same_frame; tauto. Qed.

Lemma same_frame_trans (c1 c2 c3 : Context) :
  same_frame c1 c2 -> same_frame c2 c3 -> same_frame c1 c3.
Proof. unfold same_frame; intuition congruence. Qed.

Lemma same_frame_wf (ctx ctx' : Context) :
  same_frame ctx ctx' -> wf_context ctx -> wf_context ctx'.
Proof.
  unfold same_frame, wf_context.
  intros (_ & _ & Hs & Hk & Hc & Hl) [Hp Hcs].
  apply (f_equal (@length _)) in Hc. rewrite !length_map in Hc.
  split; congruence.
Qed.

Lemma assign_same_color (cs : list Centroid) (p : Point) :
  color (assign cs p) = color p.
Proof. destruct cs; reflexivity. Qed.

Lemma ciq_clustering_frame (ctx : Context) :
  same_frame ctx (ciq_clustering ctx).
Proof.
  unfold same_frame, ciq_clustering; simpl.
  repeat split.
  rewrite map_map. apply map_ext. intros p. apply assign_same_color.
Qed.

Lemma ciq_clustering_centroids (ctx : Context) :
  centroids (ciq_clustering ctx) = centroids ctx.
Proof. reflexivity. Qed.

Lemma ciq_clustering_lookup (ctx : Context) (i : nat) :
  points (ciq_clustering ctx) !! i = assign (centroids ctx) <$> points ctx !! i.
Proof. unfold ciq_clustering; simpl. apply list_lookup_fmap. Qed.

Lemma update_loop_length (s : Sums) (ws : list Double.double) (n i : nat)
    (new : Centroid) (changed : bool) (cs : list Centroid) :
  length (snd (update_loop s ws n i new changed cs)) = length cs.
Proof.
  revert i new changed cs.
  induction n as [|n IH]; intros i new changed cs; simpl; [reflexivity|].
  rewrite IH. apply length_insert.
Qed.

Lemma ciq_update_centroids_points (new0 : Centroid) (ctx : Context) :
  points (snd (ciq_update_centroids new0 ctx)) = points ctx.
Proof.
  unfold ciq_update_centroids.
  destruct (update_loop _ _ _ _ _ _ _) as [changed cs]. reflexivity.
Qed.

Lemma ciq_update_centroids_frame (new0 : Centroid) (ctx : Context) :
  same_frame ctx (snd (ciq_update_centroids new0 ctx)).
Proof.
  unfold same_frame, ciq_update_centroids.
  pose proof (update_loop_length (accumulate (Z.to_nat (K ctx)) (points ctx))
    (map factor (cluster_size (accumulate (Z.to_nat (K ctx)) (points ctx))))
    (Z.to_nat (K ctx)) 0 new0 false (centroids ctx)) as Hlen.
  destruct (update_loop _ _ _ _ _ _ _) as [changed cs]. simpl in *.
  repeat split. exact Hlen.
Qed.

Lemma seed_step_length (w : World) (pts : list Point) (i : nat)
    (cs : list Centroid) :
  length (seed_step w pts i cs) = length cs.
Proof.
  unfold seed_step. destruct (select_point _ _ _ _); [apply length_insert|reflexivity].
Qed.

Lemma seed_loop_length (w : World) (pts : list Point) (n i : nat)
    (cs : list Centroid) :
  length (seed_loop w pts n i cs) = length cs.
Proof.
  revert i cs. induction n as [|n IH]; intros i cs; simpl; [reflexivity|].
  rewrite IH. apply seed_step_length.
Qed.

Lemma ciq_init_centroids_frame (w : World) (ctx ctx1 : Context) :
  ciq_init_centroids w ctx = Returned (Some ctx1) ->
  same_frame ctx ctx1 /\ points ctx1 = points ctx.
Proof.
  unfold ciq_init_centroids.
  destruct (negb (malloc_distances_ok w)); [discriminate|].
  destruct (size ctx =? 0); [discriminate|].
  intros H; inversion H; subst ctx1; clear H.
  unfold same_frame; simpl. repeat split.
  rewrite seed_loop_length. apply length_insert.
Qed.

Lemma round_frame (w : World) (i : nat) (ctx : Context) :
  same_frame ctx (snd (round w i ctx)).
Proof.
  unfold round. eapply same_frame_trans.
  - apply ciq_clustering_frame.
  - apply ciq_update_centroids_frame.
Qed.


Lemma iterate_unfold (w : World) (n i : nat) (ctx : Context) :
  iterate w (S n) i ctx =
    if fst (round w i ctx) then iterate w n (S i) (snd (round w i ctx))
    else (snd (round w i ctx), S i).
Proof.
  unfold round; simpl.
  destruct (ciq_update_centroids _ _) as [changed ctx2]. reflexivity.
Qed.

Lemma iterate_frame (w : World) (n i : nat) (ctx : Context) :
  same_frame ctx (fst (iterate w n i ctx)).
Proof.
  revert i ctx. induction n as [|n IH]; intros i ctx.
  - apply same_frame_refl.
  - rewrite iterate_unfold.
    destruct (fst (round w i ctx)).
    + eapply same_frame_trans; [apply round_frame | apply IH].
    + apply round_frame.
Qed.

Lemma assign_range (cs : list Centroid) (p : Point) :
  cs <> [] -> 0 <= cluster (assign cs p) < Z.of_nat (length cs).
Proof. intros H. destruct (assign_nearest cs p H) as [Hr _]. exact Hr. Qed.

Lemma ciq_clustering_labelled (ctx : Context) :
  wf_context ctx -> 1 <= K ctx -> labelled (ciq_clustering ctx).
Proof.
  intros [_ Hk] H1. unfold labelled, ciq_clustering; simpl.
  apply List.Forall_forall. intros p Hp.
  apply List.in_map_iff in Hp. destruct Hp as (q & <- & _).
  rewrite <- Hk. apply assign_range.
  destruct (centroids ctx); [simpl in Hk; lia | discriminate].
Qed.

Lemma round_labelled (w : World) (i : nat) (ctx : Context) :
  wf_context ctx -> 1 <= K ctx -> labelled (snd (round w i ctx)).
Proof.
  intros Hwf H1. unfold labelled.
  destruct (round_frame w i ctx) as (_ & _ & _ & -> & _).
  unfold round. rewrite ciq_update_centroids_points.
  apply (ciq_clustering_labelled ctx Hwf H1).
Qed.

Lemma iterate_labelled (w : World) (n i : nat) (ctx : Context) :
  wf_context ctx -> 1 <= K ctx -> (0 < n)%nat ->
  labelled (fst (iterate w n i ctx)).
Proof.
  revert i ctx. induction n as [|n IH]; intros i ctx Hwf H1 Hn; [lia|].
  rewrite iterate_unfold.
  pose proof (round_frame w i ctx) as Hf.
  destruct (fst (round w i ctx)).
  - destruct n as [|n'].
    + simpl. apply round_labelled; assumption.
    + apply IH; [eapply same_frame_wf; eassumption| |lia].
      destruct Hf as (_ & _ & _ & -> & _). exact H1.
  - apply round_labelled; assumption.
Qed.

(** ** The accumulators of the Updater *)

Lemma fold_left_add_shift (l : list Z) (a : Z) :
  fold_left Z.add l a = a + fold_left Z.add l 0.
Proof.
  revert a. induction l as [|x l IH]; intros a; simpl; [lia|].
  rewrite (IH (a + x)), (IH (0 + x)). lia.
Qed.

Lemma sum_Z_cons (x : Z) (l : list Z) : sum_Z (x :: l) = x + sum_Z l.
Proof. unfold sum_Z; simpl. apply fold_left_add_shift. Qed.

Lemma count_cons (p : Point) (pts : list Point) (j : Z) :
  count (p :: pts) j = (if cluster p =? j then 1 else 0) + count pts j.
Proof.
  unfold count, members; simpl.
  destruct (cluster p =? j); simpl length; lia.
Qed.

Lemma channel_sum_cons (f : Point -> Z) (p : Point) (pts : list Point) (j : Z) :
  channel_sum f (p :: pts) j =
    (if cluster p =? j then f p else 0) + channel_sum f pts j.
Proof.
  unfold channel_sum, members; simpl.
  destruct (cluster p =? j); simpl map; [apply sum_Z_cons | lia].
Qed.

Lemma count_nonneg (pts : list Point) (j : Z) : 0 <= count pts j.
Proof. unfold count. lia. Qed.

Lemma count_zero_iff (pts : list Point) (j : Z) :
  count pts j = 0 <-> List.Forall (fun p => cluster p <> j) pts.
Proof.
  induction pts as [|p pts IH].
  - split; [constructor | reflexivity].
  - rewrite count_cons. pose proof (count_nonneg pts j) as Hn. split.
    + intros H. destruct (cluster p =? j) eqn:E; [lia|].
      apply Z.eqb_neq in E. constructor; [exact E | apply IH; lia].
    + intros H. inversion H as [|? ? Hp Hrest]; subst.
      apply Z.eqb_neq in Hp. rewrite Hp. apply IH in Hrest. lia.
Qed.

Lemma add_at_length (j v : Z) (a : list Z) : length (add_at j v a) = length a.
Proof.
  unfold add_at. destruct (_ && _); [apply length_insert | reflexivity].
Qed.

Lemma add_at_nth (j v : Z) (a : list Z) (i : nat) :
  (i < length a)%nat ->
  nth i (add_at j v a) 0 = nth i a 0 + (if j =? Z.of_nat i then v else 0).
Proof.
  intros Hi. unfold add_at.
  destruct ((0 <=? j) && (j <? Z.of_nat (length a))) eqn:Hr.
  - apply andb_true_iff in Hr. destruct Hr as [H0 H1].
    apply Z.leb_le in H0. apply Z.ltb_lt in H1.
    rewrite !nth_lookup.
    destruct (j =? Z.of_nat i) eqn:E.
    + apply Z.eqb_eq in E. subst j. rewrite Nat2Z.id.
      rewrite list_lookup_insert_eq by exact Hi. simpl. reflexivity.
    + apply Z.eqb_neq in E.
      rewrite list_lookup_insert_ne by lia. lia.
  - destruct (j =? Z.of_nat i) eqn:E; [|lia].
    apply Z.eqb_eq in E. subst j.
    apply andb_false_iff in Hr. destruct Hr as [Hr|Hr].
    + apply Z.leb_gt in Hr. lia.
    + apply Z.ltb_ge in Hr. lia.
Qed.

Lemma tally_length (k : nat) (s : Sums) (p : Point) :
  sums_length k s -> sums_length k (tally s p).
Proof.
  unfold sums_length, tally; simpl. rewrite !add_at_length. tauto.
Qed.

Lemma fold_tally (k : nat) (pts : list Point) (s : Sums) (i : nat) :
  sums_length k s -> (i < k)%nat ->
  let s' := fold_left tally pts s in
  sums_length k s' /\
  nth i (sum_r s') 0 = nth i (sum_r s) 0 + channel_sum r pts (Z.of_nat i) /\
  nth i (sum_g s') 0 = nth i (sum_g s) 0 + channel_sum g pts (Z.of_nat i) /\
  nth i (sum_b s') 0 = nth i (sum_b s) 0 + channel_sum b pts (Z.of_nat i) /\
  nth i (cluster_size s') 0 = nth i (cluster_size s) 0 + count pts (Z.of_nat i).
Proof.
  revert s. induction pts as [|p pts IH]; intros s Hlen Hi; simpl.
  - unfold channel_sum, count, sum_Z; simpl. repeat split; try apply Hlen; lia.
  - destruct (IH (tally s p) (tally_length k s p Hlen) Hi)
      as (Hl & Hr & Hg & Hb & Hc).
    split; [exact Hl|].
    rewrite Hr, Hg, Hb, Hc.
    rewrite !channel_sum_cons, count_cons.
    destruct Hlen as (L1 & L2 & L3 & L4).
    unfold tally; simpl.
    rewrite !add_at_nth by lia.
    repeat split; lia.
Qed.

Lemma nth_repeat_0 (k i : nat) : nth i (repeat 0 k) 0 = 0.
Proof.
  revert i. induction k as [|k IH]; intros [|i]; simpl; auto.
Qed.

(** After the first loop, [sum_r[i]], [sum_g[i]], [sum_b[i]] and
    [cluster_size[i]] are the channel sums and the size of cluster [i]. *)
Lemma accumulate_spec (k : nat) (pts : list Point) (i : nat) :
  (i < k)%nat ->
  nth i (sum_r (accumulate k pts)) 0 = channel_sum r pts (Z.of_nat i) /\
  nth i (sum_g (accumulate k pts)) 0 = channel_sum g pts (Z.of_nat i) /\
  nth i (sum_b (accumulate k pts)) 0 = channel_sum b pts (Z.of_nat i) /\
  nth i (cluster_size (accumulate k pts)) 0 = count pts (Z.of_nat i) /\
  length (cluster_size (accumulate k pts)) = k.
Proof.
  intros Hi. unfold accumulate.
  assert (Hz : sums_length k (zero_sums k))
    by (unfold sums_length, zero_sums; simpl; rewrite !repeat_length; tauto).
  destruct (fold_tally k pts (zero_sums k) i Hz Hi) as (Hl & Hr & Hg & Hb & Hc).
  unfold zero_sums in *; simpl in Hr, Hg, Hb, Hc.
  rewrite nth_repeat_0 in Hr, Hg, Hb, Hc.
  destruct Hl as (_ & _ & _ & Hl).
  repeat split; lia.
Qed.

(** ** The third loop of the Updater *)

Lemma news_length (s : Sums) (ws : list Double.double) (n i : nat)
    (new : Centroid) : length (news s ws n i new) = n.
Proof.
  revert i new. induction n as [|n IH]; intros i new; simpl; [reflexivity|].
  rewrite IH. reflexivity.
Qed.

Lemma update_loop_eq (s : Sums) (ws : list Double.double) (n : nat) :
  forall (i : nat) (new : Centroid) (changed : bool) (pre cs : list Centroid),
    length pre = i -> length cs = n ->
    update_loop s ws n i new changed (pre ++ cs) =
      (changed || existsb moved (combine cs (news s ws n i new)),
       pre ++ news s ws n i new).
Proof.
  induction n as [|n IH]; intros i new changed pre cs Hpre Hcs.
  - destruct cs; [|discriminate]. simpl. rewrite orb_false_r. reflexivity.
  - destruct cs as [|c cs]; [discriminate|].
    injection Hcs as Hcs. subst i. simpl.
    rewrite nth_middle.
    rewrite insert_app_r_alt by lia.
    replace (length pre - length pre)%nat with 0%nat by lia. simpl.
    set (new' := next_new s ws (length pre) new).
    replace (pre ++ new' :: cs) with ((pre ++ [new']) ++ cs)
      by (rewrite <- app_assoc; reflexivity).
    rewrite IH; [|rewrite length_app; simpl; lia|exact Hcs].
    rewrite <- app_assoc. simpl. f_equal.
    unfold moved at 2. simpl.
    destruct (EPSILON <? ciq_distance c new'), changed; reflexivity.
Qed.

Lemma news_lookup_from (s : Sums) (ws : list Double.double)
    (new0 : Centroid) (n i k : nat) :
  (k < n)%nat ->
  news s ws n (S i) (new_at s ws new0 i) !! k = Some (new_at s ws new0 (S i + k)).
Proof.
  revert i k. induction n as [|n IH]; intros i k Hk; [lia|].
  destruct k as [|k]; simpl.
  - rewrite Nat.add_0_r. reflexivity.
  - change (next_new s ws (S i) (new_at s ws new0 i))
      with (new_at s ws new0 (S i)).
    rewrite IH by lia. rewrite Nat.add_succ_r. reflexivity.
Qed.

Lemma news_lookup (s : Sums) (ws : list Double.double)
    (new0 : Centroid) (n k : nat) :
  (k < n)%nat -> news s ws n 0 new0 !! k = Some (new_at s ws new0 k).
Proof.
  intros Hk. destruct n as [|n]; [lia|].
  destruct k as [|k]; simpl; [reflexivity|].
  change (next_new s ws 0 new0) with (new_at s ws new0 0).
  rewrite news_lookup_from by lia. reflexivity.
Qed.

Lemma ciq_update_centroids_eq (new0 : Centroid) (ctx : Context) :
  wf_context ctx ->
  ciq_update_centroids new0 ctx =
    (existsb moved
       (combine (centroids ctx)
          (news (sums_of ctx) (factors_of ctx) (Z.to_nat (K ctx)) 0 new0)),
     set_centroids ctx
       (news (sums_of ctx) (factors_of ctx) (Z.to_nat (K ctx)) 0 new0)).
Proof.
  intros [_ Hk]. unfold ciq_update_centroids.
  fold (sums_of ctx). fold (factors_of ctx).
  assert (Hlen : length (centroids ctx) = Z.to_nat (K ctx)) by lia.
  pose proof (update_loop_eq (sums_of ctx) (factors_of ctx) (Z.to_nat (K ctx))
                0 new0 false [] (centroids ctx) eq_refl Hlen) as Heq.
  cbn [app orb] in Heq. rewrite Heq. reflexivity.
Qed.

Lemma ciq_update_centroids_lookup (new0 : Centroid) (ctx : Context) (i : nat) :
  wf_context ctx -> (i < length (centroids ctx))%nat ->
  centroids (snd (ciq_update_centroids new0 ctx)) !! i =
    Some (written new0 ctx i).
Proof.
  intros Hwf Hi. rewrite ciq_update_centroids_eq by exact Hwf. simpl.
  apply news_lookup. destruct Hwf as [_ Hk]. lia.
Qed.

Lemma next_new_of_count (new : Centroid) (ctx : Context) (i : nat) :
  (i < Z.to_nat (K ctx))%nat ->
  next_new (sums_of ctx) (factors_of ctx) i new =
    if 0 <? count (points ctx) (Z.of_nat i) then
      mkPoint
        (scaled_mean (count (points ctx) (Z.of_nat i))
                     (channel_sum r (points ctx) (Z.of_nat i)))
        (scaled_mean (count (points ctx) (Z.of_nat i))
                     (channel_sum g (points ctx) (Z.of_nat i)))
        (scaled_mean (count (points ctx) (Z.of_nat i))
                     (channel_sum b (points ctx) (Z.of_nat i)))
        (cluster new)
    else new.
Proof.
  intros Hi. unfold next_new, factors_of, sums_of, scaled_mean.
  destruct (accumulate_spec (Z.to_nat (K ctx)) (points ctx) i Hi)
    as (Hr & Hg & Hb & Hc & Hl).
  rewrite (map_nth factor), Hr, Hg, Hb, Hc. reflexivity.
Qed.

Lemma written_unfold (new0 : Centroid) (ctx : Context) (i : nat) :
  written new0 ctx i =
    next_new (sums_of ctx) (factors_of ctx) i
      (match i with O => new0 | S i' => written new0 ctx i' end).
Proof. destruct i; reflexivity. Qed.

(** Round [i] of a cluster that has points: [new] is recomputed. *)
Lemma written_nonempty (new0 : Centroid) (ctx : Context) (i : nat) :
  (i < Z.to_nat (K ctx))%nat -> 0 < count (points ctx) (Z.of_nat i) ->
  color (written new0 ctx i) =
    (scaled_mean (count (points ctx) (Z.of_nat i))
                 (channel_sum r (points ctx) (Z.of_nat i)),
     scaled_mean (count (points ctx) (Z.of_nat i))
                 (channel_sum g (points ctx) (Z.of_nat i)),
     scaled_mean (count (points ctx) (Z.of_nat i))
                 (channel_sum b (points ctx) (Z.of_nat i))).
Proof.
  intros Hi Hc. rewrite written_unfold, next_new_of_count by exact Hi.
  apply Z.ltb_lt in Hc. rewrite Hc. reflexivity.
Qed.

(** Round [i] of a cluster without points: [new] keeps the value it had. *)
Lemma written_empty (new0 : Centroid) (ctx : Context) (i : nat) :
  (i < Z.to_nat (K ctx))%nat -> count (points ctx) (Z.of_nat i) = 0 ->
  written new0 ctx i = match i with O => new0 | S i' => written new0 ctx i' end.
Proof.
  intros Hi Hc. rewrite written_unfold, next_new_of_count by exact Hi.
  rewrite Hc. reflexivity.
Qed.

(** ** The loop of the Orchestrator *)

Lemma iterate_spec (w : World) (ctx0 : Context) (n i : nat) :
  (0 < n)%nat ->
  exists m : nat,
    (i < m <= i + n)%nat /\
    iterate w n i (rounds w i ctx0) = (rounds w m ctx0, m) /\
    (forall j, (i <= j < m - 1)%nat ->
       fst (round w j (rounds w j ctx0)) = true) /\
    (m = (i + n)%nat \/ fst (round w (m - 1) (rounds w (m - 1) ctx0)) = false).
Proof.
  revert i. induction n as [|n IH]; intros i Hn; [lia|].
  rewrite iterate_unfold.
  destruct (fst (round w i (rounds w i ctx0))) eqn:Hch.
  - destruct n as [|n'].
    + exists (S i). split; [lia|]. split; [reflexivity|].
      split; [intros j Hj; lia | left; lia].
    + destruct (IH (S i) ltac:(lia)) as (m & Hm & Hit & Hbefore & Hlast).
      exists m. split; [lia|]. split; [exact Hit|]. split.
      * intros j Hj. destruct (decide (j = i)) as [->|Hne]; [exact Hch|].
        apply Hbefore. lia.
      * destruct Hlast as [Hlast|Hlast]; [left; lia | right; exact Hlast].
  - exists (S i). split; [lia|]. split; [reflexivity|]. split.
    + intros j Hj. lia.
    + right. replace (S i - 1)%nat with i by lia. exact Hch.
Qed.


Lemma ciq_quantize_returned (w : World) (ctx : Context) (res : bool)
    (ctx' : Context) :
  ciq_quantize w ctx = Returned (res, ctx') ->
  (res = false /\ ctx' = ctx) \/
  (res = true /\ exists ctx1,
     ciq_init_centroids w ctx = Returned (Some ctx1) /\
     ctx' = fst (iterate w MAX_ITERS 0 ctx1)).
Proof.
  unfold ciq_quantize.
  destruct (ciq_init_centroids w ctx) as [[ctx1|]|]; intros H;
    inversion H; subst; [right|left]; eauto.
Qed.

Lemma ciq_quantize_trapped (w : World) (ctx : Context) :
  ciq_quantize w ctx = Trapped <->
  malloc_distances_ok w = true /\ size ctx = 0.
Proof.
  unfold ciq_quantize, ciq_init_centroids.
  destruct (malloc_distances_ok w); cbn [negb].
  - destruct (Z.eqb_spec (size ctx) 0) as [Hz|Hz].
    + split; [intros _; split; [reflexivity | exact Hz] | reflexivity].
    + split; [discriminate | intros [_ H]; contradiction].
  - split; [discriminate | intros [H _]; discriminate].
Qed.

Lemma ciq_quantize_frame (w : World) (ctx : Context) (res : bool)
    (ctx' : Context) :
  ciq_quantize w ctx = Returned (res, ctx') -> same_frame ctx ctx'.
Proof.
  intros H. destruct (ciq_quantize_returned w ctx res ctx' H)
    as [[_ ->]|[_ (ctx1 & Hseed & ->)]].
  - apply same_frame_refl.
  - destruct (ciq_init_centroids_frame w ctx ctx1 Hseed) as [Hf _].
    eapply same_frame_trans; [exact Hf | apply iterate_frame].
Qed.

Lemma ciq_quantize_labelled (w : World) (ctx ctx' : Context) :
  wf_context ctx -> 1 <= K ctx ->
  ciq_quantize w ctx = Returned (true, ctx') -> labelled ctx'.
Proof.
  intros Hwf H1 H. destruct (ciq_quantize_returned w ctx true ctx' H)
    as [[Hres _]|[_ (ctx1 & Hseed & ->)]]; [discriminate|].
  destruct (ciq_init_centroids_frame w ctx ctx1 Hseed) as [Hf _].
  apply iterate_labelled.
  - eapply same_frame_wf; eassumption.
  - destruct Hf as (_ & _ & _ & -> & _). exact H1.
  - unfold MAX_ITERS. lia.
Qed.

(** ** Claims on the Assigner, the invariants and the Orchestrator *)


(** C9: for [K >= 1], after a pass of the Assigner every label lies in
    [0, K); the Assigner, the Updater and the whole of [ciq_quantize] keep
    the number of centroids at [K] and the colour of every point (the
    Updater keeps the points altogether); and the labels of the result of
    a run whose seeding succeeded lie in [0, K).  On a store that is not
    empty [ciq_quantize] returns; the context [ctx'] is the one it leaves
    when it returns [res]. *)
Theorem run_invariants (w : World) (new0 : Centroid) (ctx : Context) :
  wf_context ctx -> 1 <= K ctx ->
  labelled (ciq_clustering ctx) /\
  same_frame ctx (ciq_clustering ctx) /\
  same_frame ctx (snd (ciq_update_centroids new0 ctx)) /\
  points (snd (ciq_update_centroids new0 ctx)) = points ctx /\
  (size ctx <> 0 ->
   exists (res : bool) (ctx' : Context),
     ciq_quantize w ctx = Returned (res, ctx')) /\
  forall (res : bool) (ctx' : Context),
    ciq_quantize w ctx = Returned (res, ctx') ->
    same_frame ctx ctx' /\
    Z.of_nat (length (centroids ctx')) = K ctx /\
    (res = true -> labelled ctx').
Proof.
  intros Hwf H1.
  split; [apply ciq_clustering_labelled; assumption|].
  split; [apply ciq_clustering_frame|].
  split; [apply ciq_update_centroids_frame|].
  split; [apply ciq_update_centroids_points|].
  split.
  { intros Hsz. pose proof (ciq_quantize_trapped w ctx) as Ht.
    destruct (ciq_quantize w ctx) as [[res ctx']|].
    - exists res, ctx'. reflexivity.
    - exfalso. apply Hsz. apply (proj1 Ht eq_refl). }
  intros res ctx' Hq.
  pose proof (ciq_quantize_frame w ctx res ctx' Hq) as Hf.
  split; [exact Hf|]. split.
  - destruct Hf as (_ & _ & _ & _ & _ & ->). apply Hwf.
  - intros ->. eapply ciq_quantize_labelled; eassumption.
Qed.

(** C6: once the seeding has succeeded, [ciq_quantize] runs [n] rounds with
    [1 <= n <= 100], each one a pass of the Assigner followed by a pass of
    the Updater ([round]); every round before the last reported a change,
    and the last one either reported none or was the hundredth.  In both
    cases the function returns [true] with the context those [n] rounds
    produce, whose centroid array has the length it had and whose labels
    are indices as soon as [K >= 1]. *)
Theorem ciq_quantize_rounds (w : World) (ctx ctx1 : Context) :
  ciq_init_centroids w ctx = Returned (Some ctx1) ->
  exists n : nat,
    (1 <= n <= 100)%nat /\
    ciq_quantize w ctx = Returned (true, rounds w n ctx1) /\
    (forall j, (j < n - 1)%nat -> fst (round w j (rounds w j ctx1)) = true) /\
    (n = 100%nat \/ fst (round w (n - 1) (rounds w (n - 1) ctx1)) = false) /\
    same_frame ctx (rounds w n ctx1) /\
    (wf_context ctx -> 1 <= K ctx -> labelled (rounds w n ctx1)).
Proof.
  intros Hseed.
  destruct (iterate_spec w ctx1 MAX_ITERS 0 ltac:(unfold MAX_ITERS; lia))
    as (n & Hn & Hit & Hbefore & Hlast).
  cbn [rounds] in Hit. unfold MAX_ITERS in Hn, Hlast.
  exists n. split; [lia|].
  assert (Hq : ciq_quantize w ctx = Returned (true, rounds w n ctx1))
    by (unfold ciq_quantize; rewrite Hseed, Hit; reflexivity).
  split; [exact Hq|].
  split; [intros j Hj; apply Hbefore; lia|].
  split; [destruct Hlast as [Hlast|Hlast]; [left; lia | right; exact Hlast]|].
  split.
  - exact (ciq_quantize_frame w ctx _ _ Hq).
  - intros Hwf H1. exact (ciq_quantize_labelled w ctx _ Hwf H1 Hq).
Qed.

(** ** Empty clusters in the Updater *)



(** ** The loader and the writer *)

Lemma to_int_small (z : Z) : - 2147483648 <= z <= INT_MAX -> to_int z = z.
Proof.
  unfold to_int, wrap, INT_MAX. intros H.
  change (2 ^ (32 - 1)) with 2147483648. change (2 ^ 32) with 4294967296.
  rewrite Z.mod_small by lia. lia.
Qed.

Lemma to_long_small (z : Z) :
  - 9223372036854775808 <= z < 9223372036854775808 -> to_long z = z.
Proof.
  unfold to_long, wrap. intros H.
  change (2 ^ (64 - 1)) with 9223372036854775808.
  change (2 ^ 64) with 18446744073709551616.
  rewrite Z.mod_small by lia. lia.
Qed.

Lemma read_points_length (indet : nat -> Z) (pos n : nat) (bytes : list Z) :
  length (read_points indet pos n bytes) = n.
Proof.
  revert pos bytes.
  induction n as [|n IH]; intros pos bytes; simpl; [reflexivity|].
  destruct (fread1 (indet pos) bytes) as [cr bytes1].
  destruct (fread1 (indet (S pos)) bytes1) as [cg bytes2].
  destruct (fread1 (indet (S (S pos))) bytes2) as [cb bytes3].
  simpl. rewrite IH. reflexivity.
Qed.

Lemma ciq_init_some (w : World) (k : Z) (ctx : Context) :
  ciq_init w k = Some ctx ->
  exists file : PPM,
    input_file w = Some file /\
    format file = "P6"%string /\ maxval file = 255 /\
    width ctx = hdr_width file /\ height ctx = hdr_height file /\
    size ctx = to_int (hdr_width file * hdr_height file) /\ K ctx = k /\
    length (points ctx) = Z.to_nat (size ctx) /\
    length (centroids ctx) = Z.to_nat k.
Proof.
  unfold ciq_init.
  destruct (negb (malloc_ctx_ok w)); [discriminate|].
  destruct (input_file w) as [file|]; [|discriminate].
  destruct (String.eqb (format file) "P6") eqn:Hfmt; simpl; [|discriminate].
  destruct (maxval file =? 255) eqn:Hmax; simpl; [|discriminate].
  destruct (negb (malloc_points_ok w) || negb (malloc_centroids_ok w));
    [discriminate|].
  intros H; inversion H; subst ctx; clear H. simpl.
  exists file. apply String.eqb_eq in Hfmt. apply Z.eqb_eq in Hmax.
  rewrite read_points_length, repeat_length. tauto.
Qed.

Lemma ciq_init_wf (w : World) (k : Z) (ctx : Context) :
  ciq_init w k = Some ctx -> 0 <= k -> 0 <= size ctx ->
  wf_context ctx /\ K ctx = k.
Proof.
  intros Hinit Hk Hsz.
  destruct (ciq_init_some w k ctx Hinit)
    as (file & _ & _ & _ & _ & _ & Hs & HK & Hp & Hc).
  unfold wf_context. rewrite Hp, Hc, HK. lia.
Qed.

Lemma ciq_init_centroids_ok (w : World) (ctx : Context) :
  malloc_distances_ok w = true -> size ctx <> 0 ->
  exists ctx1, ciq_init_centroids w ctx = Returned (Some ctx1).
Proof.
  intros Hm Hsz. unfold ciq_init_centroids. rewrite Hm.
  apply Z.eqb_neq in Hsz. rewrite Hsz. simpl. eauto.
Qed.

Section Triples.

Context {A : Type} (f : A -> list Z).
Hypothesis f_length : forall x, length (f x) = 3%nat.

Lemma flat_map_length3 (l : list A) :
  length (flat_map f l) = (3 * length l)%nat.
Proof using f_length.
  induction l as [|x l IH]; simpl; [reflexivity|].
  rewrite length_app, f_length, IH. lia.
Qed.

Lemma flat_map_triple (l : list A) (i : nat) (x : A) :
  l !! i = Some x -> triple_at (flat_map f l) i = f x.
Proof using f_length.
  revert i. induction l as [|y l IH]; intros i Hi; [discriminate|].
  unfold triple_at in *. simpl flat_map.
  destruct i as [|i]; simpl in Hi.
  - inversion Hi; subst y. simpl drop.
    apply take_app_length'. symmetry. apply f_length.
  - replace (3 * S i)%nat with (3 + 3 * i)%nat by lia.
    rewrite drop_app_add' by (symmetry; apply f_length).
    apply IH. exact Hi.
Qed.

End Triples.

Lemma rgb_bytes_length (c : Centroid) : length (rgb_bytes c) = 3%nat.
Proof. reflexivity. Qed.

Lemma at_index_lookup {A : Type} (a : list A) (i : Z) (oob : A) :
  0 <= i < Z.of_nat (length a) ->
  a !! Z.to_nat i = Some (at_index a i oob).
Proof.
  intros Hi. unfold at_index.
  replace ((0 <=? i) && (i <? Z.of_nat (length a))) with true
    by (symmetry; apply andb_true_iff; split;
        [apply Z.leb_le | apply Z.ltb_lt]; lia).
  rewrite nth_lookup.
  destruct (a !! Z.to_nat i) as [x|] eqn:Hx; [reflexivity|].
  apply lookup_ge_None in Hx. lia.
Qed.

(** What [ciq_remap] writes for a context whose labels are indices. *)
Lemma remap_pixels (w : World) (ctx : Context) :
  wf_context ctx -> labelled ctx ->
  length (body (image_of w ctx)) = (3 * length (points ctx))%nat /\
  length (palette_of ctx) = (3 * length (centroids ctx))%nat /\
  (forall (j : nat) (c : Centroid), centroids ctx !! j = Some c ->
     triple_at (palette_of ctx) j = rgb_bytes c) /\
  (forall (i : nat) (p : Point), points ctx !! i = Some p ->
     triple_at (body (image_of w ctx)) i =
       triple_at (palette_of ctx) (Z.to_nat (cluster p))).
Proof.
  intros [_ Hk] Hlab. unfold image_of, palette_of; simpl.
  split; [apply flat_map_length3; intros p; reflexivity|].
  split; [apply flat_map_length3; intros c; reflexivity|].
  split; [intros j c Hj; apply flat_map_triple; [reflexivity|exact Hj]|].
  intros i p Hp.
  rewrite (flat_map_triple (pixel_bytes w (centroids ctx))
             (fun _ => eq_refl) (points ctx) i p Hp).
  unfold pixel_bytes. symmetry.
  apply (flat_map_triple rgb_bytes rgb_bytes_length).
  apply at_index_lookup. rewrite Hk.
  unfold labelled in Hlab. rewrite List.Forall_forall in Hlab.
  apply Hlab. apply list_elem_of_In. eapply list_elem_of_lookup_2. exact Hp.
Qed.

(** The product of the header numbers is an [int] product: a header of 7
    by 613566757 announces 2^32 + 3 pixels, and [size] is 3. *)
Lemma header_product_wraps (w : World) (k : Z) (bytes : list Z)
    (ctx : Context) :
  input_file w = Some (mkPPM "P6" 7 613566757 255 bytes) ->
  ciq_init w k = Some ctx ->
  size ctx = 3 /\ length (points ctx) = 3%nat.
Proof.
  intros Hfile Hinit.
  destruct (ciq_init_some w k ctx Hinit)
    as (file & Hfile' & _ & _ & _ & _ & Hs & _ & Hp & _).
  rewrite Hfile in Hfile'. inversion Hfile'; subst file.
  cbn [hdr_width hdr_height] in Hs.
  change (to_int (7 * 613566757)) with 3 in Hs.
  rewrite Hp, Hs. split; reflexivity.
Qed.

(** C8, as amended: a run in which the image is loaded, the seeding succeeds
    and both files are opened, for [K >= 1], an image of at least one pixel
    whose [width * height] does not exceed [INT_MAX], and an output
    argument that does not name [palette.pal], exits with status 0 and
    writes an image with the dimensions of the input and three bytes for
    each of its [width * height] pixels, and a palette of [K] entries of
    three bytes, entry [j] being the bytes of centroid [j]; the bytes of
    pixel [i] are the palette entry at the label of point [i], which lies
    in [0, K). *)
Theorem remap_writes_palette_entries (w : World) (k : Z) (file : PPM)
    (ctx0 : Context) :
  input_file w = Some file ->
  ciq_init w k = Some ctx0 ->
  malloc_distances_ok w = true ->
  fopen_output_ok w = true ->
  fopen_palette_ok w = true ->
  output_is_palette w = false ->
  1 <= k ->
  1 <= hdr_width file * hdr_height file <= INT_MAX ->
  exists (ctx : Context) (img : Image) (pal : list Z),
    ciq_quantize w ctx0 = Returned (true, ctx) /\
    main w k = Returned (0, mkFiles (Some img) (Some pal)) /\
    out_width img = hdr_width file /\ out_height img = hdr_height file /\
    length (body img) = (3 * Z.to_nat (hdr_width file * hdr_height file))%nat /\
    length pal = (3 * Z.to_nat k)%nat /\
    (forall (j : nat) (c : Centroid), centroids ctx !! j = Some c ->
       triple_at pal j = rgb_bytes c) /\
    (forall (i : nat) (p : Point), points ctx !! i = Some p ->
       0 <= cluster p < k /\
       triple_at (body img) i = triple_at pal (Z.to_nat (cluster p))).
Proof.
  intros Hfile Hinit Hmalloc Hout Hpal Hname Hk Hsz.
  destruct (ciq_init_some w k ctx0 Hinit)
    as (file' & Hfile' & _ & _ & Hw & Hh & Hs & HK & Hp & Hc).
  rewrite Hfile in Hfile'. inversion Hfile'; subst file'; clear Hfile'.
  rewrite to_int_small in Hs by lia.
  destruct (ciq_init_wf w k ctx0 Hinit ltac:(lia) ltac:(lia)) as [Hwf0 _].
  destruct (ciq_init_centroids_ok w ctx0 Hmalloc ltac:(lia)) as [ctx1 Hseed].
  set (ctx := fst (iterate w MAX_ITERS 0 ctx1)).
  assert (Hq : ciq_quantize w ctx0 = Returned (true, ctx))
    by (unfold ciq_quantize; rewrite Hseed; reflexivity).
  pose proof (ciq_quantize_frame w ctx0 _ _ Hq) as Hframe.
  pose proof (ciq_quantize_labelled w ctx0 ctx Hwf0 ltac:(lia) Hq) as Hlab.
  pose proof (same_frame_wf ctx0 ctx Hframe Hwf0) as Hwf.
  destruct (remap_pixels w ctx Hwf Hlab) as (Hbody & Hplen & Hentry & Hpixel).
  destruct Hframe as (Fw & Fh & Fs & FK & Fcol & Flen).
  exists ctx, (image_of w ctx), (palette_of ctx).
  split; [exact Hq|].
  split.
  { unfold main, ciq_quanization, ciq_remap.
    rewrite Hinit, Hq, Hout, Hpal, Hname. reflexivity. }
  split; [unfold image_of; simpl; congruence|].
  split; [unfold image_of; simpl; congruence|].
  split.
  { rewrite Hbody. apply (f_equal (@length _)) in Fcol.
    rewrite !length_map in Fcol. rewrite Fcol, Hp, Hs. reflexivity. }
  split; [rewrite Hplen, Flen, Hc; reflexivity|].
  split; [exact Hentry|].
  intros i p Hip. split; [|apply Hpixel; exact Hip].
  unfold labelled in Hlab. rewrite List.Forall_forall in Hlab.
  rewrite <- HK, <- FK. apply Hlab.
  apply list_elem_of_In. eapply list_elem_of_lookup_2. exact Hip.
Qed.

(** ** Concrete runs *)

(** The seeding, the first pass of the Assigner and the contexts named in
    [Runs] are what the program computes. *)
Lemma spread_two_reached :
  exists ctx,
    ciq_init Runs.spread 3 = Some ctx /\
    points ctx = Runs.spread_points /\
    seed_step Runs.spread (points ctx) 1
      (<[ 0%nat := centroid_of
                     (at_index (points ctx) 0 (indet_read Runs.spread)) ]>
         (centroids ctx)) = Runs.spread_two.
Proof. eexists. split; [reflexivity|]. split; reflexivity. Qed.

Lemma twins_assigned_reached (new : nat -> Centroid) :
  exists ctx ctx1,
    ciq_init (Runs.twins new) 2 = Some ctx /\
    ciq_init_centroids (Runs.twins new) ctx = Returned (Some ctx1) /\
    ciq_clustering ctx1 = Runs.twins_assigned.
Proof.
  eexists. eexists. split; [reflexivity|]. split; [reflexivity|].
  vm_compute. reflexivity.
Qed.

Lemma uniform_assigned_reached :
  exists ctx ctx1,
    ciq_init Runs.uniform 1 = Some ctx /\
    ciq_init_centroids Runs.uniform ctx = Returned (Some ctx1) /\
    ciq_clustering ctx1 = Runs.uniform_assigned.
Proof.
  eexists. eexists. split; [reflexivity|]. split; [reflexivity|].
  vm_compute. reflexivity.
Qed.

(** ** The Seeder against the specification *)

(** For centroid 1 a single centroid has been chosen, and the two
    readings give the same weights. *)
Lemma seed_distances_round_one (pts : list Point) (c0 : Centroid)
    (cs : list Centroid) (oob : Centroid) :
  spec_seed_distances pts (take 1 (c0 :: cs)) =
    seed_distances pts (nth (1 - 1) (c0 :: cs) oob).
Proof. reflexivity. Qed.

(** C2, on the run [Runs.spread]: when centroid 2 is chosen, centroids 0
    and 1 are the reds 0 and 10.  The program weighs the three points by
    their distance to centroid 1 alone, [100; 0; 81] with total 181, where
    the distance to the nearest chosen centroid is [0; 0; 1] with total 1;
    with the same draw the program picks the pixel of red 1 and the
    specification's round the pixel of red 0. *)
Theorem seeding_weighs_against_last_centroid_only :
  seed_distances Runs.spread_points
    (nth (2 - 1) Runs.spread_two (indet_read Runs.spread))
    = [100; 0; 81] /\
  spec_seed_distances Runs.spread_points (take 2 Runs.spread_two)
    = [0; 0; 1] /\
  seed_step Runs.spread Runs.spread_points 2 Runs.spread_two
    = [mkPoint 0 0 0 0; mkPoint 10 0 0 0; mkPoint 1 0 0 0] /\
  spec_seed_step Runs.spread Runs.spread_points 2 Runs.spread_two
    = [mkPoint 0 0 0 0; mkPoint 10 0 0 0; mkPoint 0 0 0 0] /\
  (exists ctx ctx1,
     ciq_init Runs.spread 3 = Some ctx /\
     ciq_init_centroids Runs.spread ctx = Returned (Some ctx1) /\
     centroids ctx1
       = [mkPoint 0 0 0 0; mkPoint 10 0 0 0; mkPoint 1 0 0 0]).
Proof.
  split; [reflexivity|]. split; [reflexivity|].
  split; [vm_compute; reflexivity|]. split; [vm_compute; reflexivity|].
  eexists. eexists. split; [reflexivity|].
  split; [vm_compute; reflexivity|]. reflexivity.
Qed.

(** ** The Updater against the specification *)

(** C3, on the run [Runs.twins]: after the seeding and the first pass of
    the Assigner the context is [Runs.twins_assigned], in which cluster 1
    is empty and centroid 1 is the red 110; the update writes the red 113
    there, the value computed for cluster 0, whatever the local [new] held
    on entry. *)
Theorem empty_cluster_centroid_is_overwritten (new0 : Centroid) :
  (exists ctx ctx1,
     ciq_init (Runs.twins (fun _ => new0)) 2 = Some ctx /\
     ciq_init_centroids (Runs.twins (fun _ => new0)) ctx
       = Returned (Some ctx1) /\
     ciq_clustering ctx1 = Runs.twins_assigned) /\
  count (points Runs.twins_assigned) 1 = 0 /\
  color <$> centroids Runs.twins_assigned !! 1%nat = Some (110, 0, 0) /\
  color <$> centroids (snd (ciq_update_centroids new0 Runs.twins_assigned))
              !! 1%nat = Some (113, 0, 0).
Proof.
  split; [apply twins_assigned_reached|].
  split; [reflexivity|]. split; [reflexivity|].
  rewrite ciq_update_centroids_lookup;
    [|split; reflexivity|simpl; lia].
  change (Some (color (written new0 Runs.twins_assigned 1))
          = Some (113, 0, 0)).
  vm_compute. reflexivity.
Qed.

(** C5, on the run [Runs.uniform]: after the seeding and the first pass of
    the Assigner the 49 points of cluster 0 all have the channels
    (1, 1, 1), so that each channel sum is 49 and each mean is 1.  The
    factor [1.0 / 49] is 5882252574524729 * 2^-58, below 1/49; its product
    with 49 is (2^58 - 23) * 2^-58, which rounds to (2^53 - 1) * 2^-53 and
    truncates to 0.  The update stores (0, 0, 0) without reporting a
    change, and the run writes the palette entry (0, 0, 0) and an image of
    zero bytes. *)
Theorem update_reciprocal_product_misses_mean :
  (exists ctx ctx1,
     ciq_init Runs.uniform 1 = Some ctx /\
     ciq_init_centroids Runs.uniform ctx = Returned (Some ctx1) /\
     ciq_clustering ctx1 = Runs.uniform_assigned) /\
  count (points Runs.uniform_assigned) 0 = 49 /\
  channel_sum r (points Runs.uniform_assigned) 0 = 49 /\
  channel_sum r (points Runs.uniform_assigned) 0
    / count (points Runs.uniform_assigned) 0 = 1 /\
  factor 49 = S754_finite false 5882252574524729 (-58) /\
  Double.mul (factor 49) (Double.of_Z 49)
    = S754_finite false 9007199254740991 (-53) /\
  scaled_mean 49 49 = 0 /\
  (forall new0,
     fst (ciq_update_centroids new0 Runs.uniform_assigned) = false /\
     color <$> centroids (snd (ciq_update_centroids new0 Runs.uniform_assigned))
                 !! 0%nat = Some (0, 0, 0)) /\
  main Runs.uniform 1 =
    Returned
      (0, mkFiles (Some (mkImage 7 7 (repeat 0 147))) (Some [0; 0; 0])).
Proof.
  split; [apply uniform_assigned_reached|].
  split; [vm_compute; reflexivity|]. split; [vm_compute; reflexivity|].
  split; [vm_compute; reflexivity|]. split; [vm_compute; reflexivity|].
  split; [vm_compute; reflexivity|]. split; [vm_compute; reflexivity|].
  split; [|vm_compute; reflexivity].
  intros new0. split.
  - rewrite ciq_update_centroids_eq by (split; reflexivity).
    cbn [fst]. vm_compute. reflexivity.
  - rewrite ciq_update_centroids_lookup; [|split; reflexivity|simpl; lia].
    change (Some (color (written new0 Runs.uniform_assigned 0))
            = Some (0, 0, 0)).
    vm_compute. reflexivity.
Qed.


(** ** The whole run *)

Lemma load_failure_exits_1 (w : World) (k : Z) :
  ciq_init w k = None -> main w k = Returned (1, mkFiles None None).
Proof. intros H. unfold main, ciq_quanization. rewrite H. reflexivity. Qed.

(** C8 as it was stated, on the run [Cases.clobbered]: every step
    succeeds and [main] returns 0, but the output argument names
    [palette.pal]; the image written first is emptied when that file is
    opened again, and no image of [width * height] pixels is left. *)
Lemma output_named_palette_loses_image :
  (exists ctx0 ctx,
     ciq_init Cases.clobbered 2 = Some ctx0 /\
     ciq_quantize Cases.clobbered ctx0 = Returned (true, ctx) /\
     fst (ciq_remap Cases.clobbered ctx) = true) /\
  main Cases.clobbered 2 =
    Returned (0, mkFiles None (Some [113; 0; 0; 113; 0; 0])).
Proof.
  split; [|vm_compute; reflexivity].
  eexists. eexists. split; [reflexivity|].
  split; [vm_compute; reflexivity|]. reflexivity.
Qed.

(** C1, on three runs over an image of the one pixel (100, 20, 30) with
    [K = 1]: when the output file cannot be opened [main] returns 0; when
    [palette.pal] cannot be opened it returns 0 and leaves the output image
    behind; when the buffer of the Seeder cannot be allocated
    [ciq_quantize] returns false, and [main] returns 0 all the same and
    writes both files, the pixel from a read of [centroids[-1]] and the
    palette from the zeroed centroid array. *)
Theorem failures_after_load_exit_0 :
  main Runs.output_unwritable 1 = Returned (0, mkFiles None None) /\
  main Runs.palette_unwritable 1 =
    Returned (0, mkFiles (Some (mkImage 1 1 [100; 20; 30])) None) /\
  (forall stray : Centroid,
     (exists ctx, ciq_init (Runs.seeder_fails stray) 1 = Some ctx /\
        ciq_quantize (Runs.seeder_fails stray) ctx = Returned (false, ctx)) /\
     main (Runs.seeder_fails stray) 1 =
       Returned
         (0, mkFiles (Some (mkImage 1 1 (rgb_bytes stray)))
                     (Some [0; 0; 0]))).
Proof.
  split; [vm_compute; reflexivity|]. split; [vm_compute; reflexivity|].
  intros stray. split.
  - eexists. split; reflexivity.
  - reflexivity.
Qed.

(** The Seeder is a function of the points, [K] and the draws: two worlds
    with the same draws and the same [RAND_MAX] seed the same centroids. *)
Lemma seed_step_same_draws (w1 w2 : World) (pts : list Point) (i : nat)
    (cs : list Centroid) :
  rand w1 i = rand w2 i -> RAND_MAX w1 = RAND_MAX w2 ->
  (1 <= i <= length cs)%nat ->
  seed_step w1 pts i cs = seed_step w2 pts i cs.
Proof.
  intros Hr Hm Hi. unfold seed_step, seed_choice.
  rewrite (nth_indep cs (indet_read w1) (indet_read w2)) by lia.
  rewrite Hr, Hm. reflexivity.
Qed.

Lemma seed_loop_same_draws (w1 w2 : World) (pts : list Point) (n i : nat)
    (cs : list Centroid) :
  (forall j, rand w1 j = rand w2 j) -> RAND_MAX w1 = RAND_MAX w2 ->
  (1 <= i)%nat -> (i + n <= length cs + 1)%nat ->
  seed_loop w1 pts n i cs = seed_loop w2 pts n i cs.
Proof.
  intros Hr Hm. revert i cs.
  induction n as [|n IH]; intros i cs H1 Hlen; simpl; [reflexivity|].
  rewrite (seed_step_same_draws w1 w2 pts i cs (Hr i) Hm) by lia.
  apply IH; [lia|]. rewrite seed_step_length. lia.
Qed.

Lemma seeding_reproducible (w1 w2 : World) (ctx : Context) :
  wf_context ctx -> 1 <= size ctx -> 0 <= rand w1 0%nat ->
  (forall j, rand w1 j = rand w2 j) -> RAND_MAX w1 = RAND_MAX w2 ->
  malloc_distances_ok w1 = malloc_distances_ok w2 ->
  ciq_init_centroids w1 ctx = ciq_init_centroids w2 ctx.
Proof.
  intros [Hp Hk] Hsz H0 Hr Hm Hmalloc. unfold ciq_init_centroids.
  cbv zeta. rewrite <- Hmalloc, <- (Hr 0%nat).
  destruct (negb (malloc_distances_ok w1)); [reflexivity|].
  destruct (size ctx =? 0); [reflexivity|].
  assert (Hidx : 0 <= Z.rem (rand w1 0%nat) (size ctx)
                 < Z.of_nat (length (points ctx))).
  { rewrite Hp. rewrite Z.rem_mod_nonneg by lia.
    apply Z.mod_pos_bound. lia. }
  pose proof (at_index_lookup (points ctx) _ (indet_read w1) Hidx) as E1.
  pose proof (at_index_lookup (points ctx) _ (indet_read w2) Hidx) as E2.
  assert (E : at_index (points ctx) (Z.rem (rand w1 0%nat) (size ctx))
                (indet_read w2)
              = at_index (points ctx) (Z.rem (rand w1 0%nat) (size ctx))
                  (indet_read w1)) by congruence.
  rewrite E. f_equal. f_equal. f_equal.
  apply seed_loop_same_draws; [exact Hr|exact Hm|lia|].
  rewrite length_insert. lia.
Qed.

(** C7, on the run [Runs.drained]: two runs on the same image with the same
    [K], the same draws and the same outcome of every allocation and
    [fopen], which differ only in the content of the uninitialised local
    [new] of the Updater, write different palettes. *)
Theorem output_depends_on_uninitialised_new :
  main (Runs.drained (mkPoint 0 255 255 0)) 3 =
    Returned
      (0, mkFiles
            (Some (mkImage 8 1 [25; 0; 0; 175; 0; 0; 25; 0; 0; 25; 0; 0;
                                25; 0; 0; 175; 0; 0; 175; 0; 0; 175; 0; 0]))
            (Some [0; 255; 255; 25; 0; 0; 175; 0; 0])) /\
  main (Runs.drained (mkPoint 0 200 200 0)) 3 =
    Returned
      (0, mkFiles
            (Some (mkImage 8 1 [25; 0; 0; 175; 0; 0; 25; 0; 0; 25; 0; 0;
                                25; 0; 0; 175; 0; 0; 175; 0; 0; 175; 0; 0]))
            (Some [0; 200; 200; 25; 0; 0; 175; 0; 0])) /\
  main (Runs.drained (mkPoint 0 255 255 0)) 3
    <> main (Runs.drained (mkPoint 0 200 200 0)) 3.
Proof.
  assert (H1 : main (Runs.drained (mkPoint 0 255 255 0)) 3 =
    Returned
      (0, mkFiles
            (Some (mkImage 8 1 [25; 0; 0; 175; 0; 0; 25; 0; 0; 25; 0; 0;
                                25; 0; 0; 175; 0; 0; 175; 0; 0; 175; 0; 0]))
            (Some [0; 255; 255; 25; 0; 0; 175; 0; 0])))
    by (vm_compute; reflexivity).
  assert (H2 : main (Runs.drained (mkPoint 0 200 200 0)) 3 =
    Returned
      (0, mkFiles
            (Some (mkImage 8 1 [25; 0; 0; 175; 0; 0; 25; 0; 0; 25; 0; 0;
                                25; 0; 0; 175; 0; 0; 175; 0; 0; 175; 0; 0]))
            (Some [0; 200; 200; 25; 0; 0; 175; 0; 0])))
    by (vm_compute; reflexivity).
  split; [exact H1|]. split; [exact H2|].
  rewrite H1, H2. intros Heq. inversion Heq.
Qed.

(** ** What holds of the Updater *)



(** The channels written for a cluster that has points are the truncated
    products of [1.0 / count] and the channel sums; with [K = 1] and every
    label 0 these are taken over all the points. *)
Lemma ciq_update_centroids_nonempty (new0 : Centroid) (ctx : Context)
    (i : nat) :
  wf_context ctx -> (i < length (centroids ctx))%nat ->
  0 < count (points ctx) (Z.of_nat i) ->
  color <$> centroids (snd (ciq_update_centroids new0 ctx)) !! i =
    Some (scaled_mean (count (points ctx) (Z.of_nat i))
                      (channel_sum r (points ctx) (Z.of_nat i)),
          scaled_mean (count (points ctx) (Z.of_nat i))
                      (channel_sum g (points ctx) (Z.of_nat i)),
          scaled_mean (count (points ctx) (Z.of_nat i))
                      (channel_sum b (points ctx) (Z.of_nat i))).
Proof.
  intros Hwf Hi Hc.
  rewrite ciq_update_centroids_lookup by assumption.
  cbn [fmap option_fmap option_map]. f_equal.
  apply written_nonempty; [destruct Hwf as [_ Hk]; lia | exact Hc].
Qed.

(** When cluster 0 has points, the colours the update writes do not depend
    on what the local [new] held on entry. *)
Lemma written_color_independent (n1 n2 : Centroid) (ctx : Context) (i : nat) :
  (i < Z.to_nat (K ctx))%nat -> 0 < count (points ctx) 0 ->
  color (written n1 ctx i) = color (written n2 ctx i).
Proof.
  intros Hi H0. induction i as [|i IH].
  - rewrite !written_nonempty by assumption. reflexivity.
  - destruct (Z.ltb_spec 0 (count (points ctx) (Z.of_nat (S i)))) as [Hc|Hc].
    + rewrite !written_nonempty by assumption. reflexivity.
    + pose proof (count_nonneg (points ctx) (Z.of_nat (S i))) as Hn.
      rewrite !(written_empty _ ctx (S i)) by lia.
      apply IH. lia.
Qed.

(** ** Instances *)


Lemma run_invariants_witness :
  wf_context Runs.pair /\ 1 <= K Runs.pair /\
  labelled (ciq_clustering Runs.pair) /\
  exists (res : bool) (ctx' : Context),
    ciq_quantize (Runs.twins (fun _ => zero_point)) Runs.pair
      = Returned (res, ctx') /\
    same_frame Runs.pair ctx'.
Proof.
  assert (Hwf : wf_context Runs.pair) by (split; reflexivity).
  assert (Hk : 1 <= K Runs.pair) by (simpl; lia).
  split; [exact Hwf|]. split; [exact Hk|].
  destruct (run_invariants (Runs.twins (fun _ => zero_point)) zero_point
              Runs.pair Hwf Hk) as (Hl & _ & _ & _ & _ & Hq).
  split; [exact Hl|].
  destruct (ciq_quantize (Runs.twins (fun _ => zero_point)) Runs.pair)
    as [[res ctx']|] eqn:Heq.
  - exists res, ctx'. split; [reflexivity|].
    exact (proj1 (Hq res ctx' eq_refl)).
  - vm_compute in Heq. discriminate Heq.
Defined.

Lemma ciq_quantize_rounds_witness :
  ciq_init_centroids (Runs.twins (fun _ => zero_point)) Runs.twins_loaded
    = Returned (Some Runs.twins_seeded) /\
  exists n : nat,
    (1 <= n <= 100)%nat /\
    ciq_quantize (Runs.twins (fun _ => zero_point)) Runs.twins_loaded =
      Returned
        (true, rounds (Runs.twins (fun _ => zero_point)) n Runs.twins_seeded).
Proof.
  assert (Hseed : ciq_init_centroids (Runs.twins (fun _ => zero_point))
                    Runs.twins_loaded = Returned (Some Runs.twins_seeded))
    by reflexivity.
  split; [exact Hseed|].
  destruct (ciq_quantize_rounds _ _ _ Hseed) as (n & Hn & Hq & _).
  exists n. split; [exact Hn | exact Hq].
Defined.

Lemma remap_writes_palette_entries_witness :
  input_file (Runs.twins (fun _ => zero_point))
    = Some (Runs.red_image 3 1 [110; 110; 120]) /\
  ciq_init (Runs.twins (fun _ => zero_point)) 2 = Some Runs.twins_loaded /\
  malloc_distances_ok (Runs.twins (fun _ => zero_point)) = true /\
  fopen_output_ok (Runs.twins (fun _ => zero_point)) = true /\
  fopen_palette_ok (Runs.twins (fun _ => zero_point)) = true /\
  output_is_palette (Runs.twins (fun _ => zero_point)) = false /\
  1 <= 2 /\
  1 <= hdr_width (Runs.red_image 3 1 [110; 110; 120])
       * hdr_height (Runs.red_image 3 1 [110; 110; 120]) <= INT_MAX /\
  exists (img : Image) (pal : list Z),
    main (Runs.twins (fun _ => zero_point)) 2
      = Returned (0, mkFiles (Some img) (Some pal)) /\
    length (body img) = 9%nat /\ length pal = 6%nat.
Proof.
  assert (H1 : input_file (Runs.twins (fun _ => zero_point))
                 = Some (Runs.red_image 3 1 [110; 110; 120])) by reflexivity.
  assert (H2 : ciq_init (Runs.twins (fun _ => zero_point)) 2
                 = Some Runs.twins_loaded) by reflexivity.
  assert (H3 : malloc_distances_ok (Runs.twins (fun _ => zero_point)) = true)
    by reflexivity.
  assert (H4 : fopen_output_ok (Runs.twins (fun _ => zero_point)) = true)
    by reflexivity.
  assert (H5 : fopen_palette_ok (Runs.twins (fun _ => zero_point)) = true)
    by reflexivity.
  assert (H5' : output_is_palette (Runs.twins (fun _ => zero_point)) = false)
    by reflexivity.
  assert (H6 : 1 <= 2) by lia.
  assert (H7 : 1 <= hdr_width (Runs.red_image 3 1 [110; 110; 120])
                    * hdr_height (Runs.red_image 3 1 [110; 110; 120])
               <= INT_MAX)
    by (unfold INT_MAX; simpl; lia).
  repeat (split; [assumption|]).
  destruct (remap_writes_palette_entries _ _ _ _ H1 H2 H3 H4 H5 H5' H6 H7)
    as (ctx & img & pal & _ & Hmain & _ & _ & Hb & Hp & _).
  exists img, pal. split; [exact Hmain|]. split; [exact Hb | exact Hp].
Defined.


(** * Further properties of the program *)

(** ** ciq_distance *)

Lemma square_byte_diff (x : Z) : -255 <= x <= 255 -> 0 <= x * x <= 65025.
Proof.
  intros H. split; [apply Z.square_nonneg|].
  rewrite <- Z.abs_square.
  change 65025 with (255 * 255).
  apply Z.mul_le_mono_nonneg; lia.
Qed.

Lemma ciq_distance_bytes (p q : Point) :
  byte_color p -> byte_color q ->
  ciq_distance p q =
    (r p - r q) * (r p - r q) + (g p - g q) * (g p - g q)
    + (b p - b q) * (b p - b q).
Proof.
  unfold byte_color, ciq_distance. cbv zeta.
  intros (Hr & Hg & Hb) (Hr' & Hg' & Hb').
  rewrite (to_int_small (r p - r q)) by (unfold INT_MAX; lia).
  rewrite (to_int_small (g p - g q)) by (unfold INT_MAX; lia).
  rewrite (to_int_small (b p - b q)) by (unfold INT_MAX; lia).
  pose proof (square_byte_diff (r p - r q)).
  pose proof (square_byte_diff (g p - g q)).
  pose proof (square_byte_diff (b p - b q)).
  apply to_long_small. lia.
Qed.

Lemma ciq_distance_nonneg (p q : Point) :
  byte_color p -> byte_color q -> 0 <= ciq_distance p q.
Proof.
  intros Hp Hq. rewrite ciq_distance_bytes by assumption.
  pose proof (Z.square_nonneg (r p - r q)).
  pose proof (Z.square_nonneg (g p - g q)).
  pose proof (Z.square_nonneg (b p - b q)).
  lia.
Qed.

Lemma ciq_distance_same (p q : Point) :
  color p = color q -> ciq_distance p q = 0.
Proof.
  unfold color, ciq_distance. intros H. inversion H as [[Hr Hg Hb]].
  cbv zeta. rewrite Hr, Hg, Hb, !Z.sub_diag. reflexivity.
Qed.

Lemma ciq_distance_zero (p q : Point) :
  byte_color p -> byte_color q ->
  ciq_distance p q = 0 <-> color p = color q.
Proof.
  intros Hp Hq. split; [|apply ciq_distance_same].
  rewrite ciq_distance_bytes by assumption. unfold color.
  pose proof (Z.square_nonneg (r p - r q)) as Sr.
  pose proof (Z.square_nonneg (g p - g q)) as Sg.
  pose proof (Z.square_nonneg (b p - b q)) as Sb.
  intros H.
  assert (Hr : (r p - r q) * (r p - r q) = 0) by lia.
  assert (Hg : (g p - g q) * (g p - g q) = 0) by lia.
  assert (Hb : (b p - b q) * (b p - b q) = 0) by lia.
  apply Z.mul_eq_0 in Hr, Hg, Hb.
  f_equal; [f_equal|]; lia.
Qed.

Lemma ciq_distance_set_cluster (p q : Point) (j : Z) :
  ciq_distance (set_cluster p j) q = ciq_distance p q.
Proof. reflexivity. Qed.

Lemma ciq_distance_same_color (p q c : Point) :
  color p = color q -> ciq_distance p c = ciq_distance q c.
Proof.
  unfold color, ciq_distance. intros H. inversion H as [[Hr Hg Hb]].
  cbv zeta. rewrite Hr, Hg, Hb. reflexivity.
Qed.

(** X1: between two colours whose channels are bytes, the squared distance
    is the sum of the squares of the channel differences: it is never
    negative, does not depend on the order of its arguments nor on the
    labels, and is zero exactly between two equal colours.  (Beyond that
    range the [int] differences and the [long] sum wrap.) *)
Theorem ciq_distance_metric (p q : Point) :
  byte_color p -> byte_color q ->
  ciq_distance p q =
    (r p - r q) * (r p - r q) + (g p - g q) * (g p - g q)
    + (b p - b q) * (b p - b q) /\
  0 <= ciq_distance p q /\
  ciq_distance p q = ciq_distance q p /\
  (forall j k, ciq_distance (set_cluster p j) (set_cluster q k)
               = ciq_distance p q) /\
  (ciq_distance p q = 0 <-> color p = color q).
Proof.
  intros Hp Hq.
  split; [apply ciq_distance_bytes; assumption|].
  split; [apply ciq_distance_nonneg; assumption|].
  split; [rewrite !ciq_distance_bytes by assumption; ring|].
  split; [reflexivity | apply ciq_distance_zero; assumption].
Qed.

Lemma ciq_distance_metric_witness :
  byte_color (mkPoint 0 0 0 0) /\ byte_color (mkPoint 255 255 255 0) /\
  0 <= ciq_distance (mkPoint 0 0 0 0) (mkPoint 255 255 255 0).
Proof.
  assert (H1 : byte_color (mkPoint 0 0 0 0))
    by (unfold byte_color; simpl; lia).
  assert (H2 : byte_color (mkPoint 255 255 255 0))
    by (unfold byte_color; simpl; lia).
  split; [exact H1|]. split; [exact H2|].
  exact (proj1 (proj2 (ciq_distance_metric _ _ H1 H2))).
Defined.

(** X2: between two colours whose channels are bytes the squared distance
    is at most 3 * 255^2 = 195075. *)
Theorem ciq_distance_byte_bound (p q : Point) :
  byte_color p -> byte_color q -> ciq_distance p q <= 195075.
Proof.
  intros Hp Hq. rewrite ciq_distance_bytes by assumption.
  destruct Hp as (Hr & Hg & Hb), Hq as (Hr' & Hg' & Hb').
  pose proof (square_byte_diff (r p - r q)).
  pose proof (square_byte_diff (g p - g q)).
  pose proof (square_byte_diff (b p - b q)).
  lia.
Qed.

Lemma ciq_distance_byte_bound_witness :
  byte_color (mkPoint 0 0 0 0) /\ byte_color (mkPoint 255 255 255 0) /\
  ciq_distance (mkPoint 0 0 0 0) (mkPoint 255 255 255 0) <= 195075.
Proof.
  assert (H1 : byte_color (mkPoint 0 0 0 0))
    by (unfold byte_color; simpl; lia).
  assert (H2 : byte_color (mkPoint 255 255 255 0))
    by (unfold byte_color; simpl; lia).
  split; [exact H1|]. split; [exact H2|].
  exact (ciq_distance_byte_bound _ _ H1 H2).
Defined.

(** ** ciq_init *)

Lemma to_uchar_byte (z : Z) : 0 <= z <= 255 -> to_uchar z = z.
Proof. intros H. unfold to_uchar. apply Z.mod_small. lia. Qed.





Lemma fread1_length (indet : Z) (bytes : list Z) :
  length (snd (fread1 indet bytes)) = pred (length bytes).
Proof. destruct bytes; reflexivity. Qed.

Lemma fread1_empty (indet : Z) : fread1 indet [] = (indet, []).
Proof. reflexivity. Qed.

Lemma read_points_past_end (indet : nat -> Z) (pos n : nat)
    (bytes : list Z) (i : nat) :
  (i < n)%nat -> (length bytes <= 3 * i)%nat ->
  read_points indet pos n bytes !! i =
    Some (mkPoint (to_uchar (indet (pos + 3 * i)%nat))
                  (to_uchar (indet (pos + 3 * i + 1)%nat))
                  (to_uchar (indet (pos + 3 * i + 2)%nat)) (-1)).
Proof.
  revert pos bytes i.
  induction n as [|n IH]; intros pos bytes i Hi Hlen; [lia|].
  cbn [read_points].
  pose proof (fread1_length (indet pos) bytes) as L1.
  destruct (fread1 (indet pos) bytes) as [cr bytes1] eqn:E1.
  pose proof (fread1_length (indet (S pos)) bytes1) as L2.
  destruct (fread1 (indet (S pos)) bytes1) as [cg bytes2] eqn:E2.
  pose proof (fread1_length (indet (S (S pos))) bytes2) as L3.
  destruct (fread1 (indet (S (S pos))) bytes2) as [cb bytes3] eqn:E3.
  cbn [snd] in L1, L2, L3.
  destruct i as [|i].
  - destruct bytes; [|simpl in Hlen; lia].
    rewrite fread1_empty in E1. inversion E1; subst cr bytes1.
    rewrite fread1_empty in E2. inversion E2; subst cg bytes2.
    rewrite fread1_empty in E3. inversion E3; subst cb bytes3.
    simpl. repeat f_equal; lia.
  - replace (pos + 3 * S i)%nat with (S (S (S pos)) + 3 * i)%nat by lia.
    rewrite <- (IH (S (S (S pos))) bytes3 i) by lia. reflexivity.
Qed.

(** X4: a file that ends before its last pixel is loaded all the same: the
    result of no [fread] is tested, and a point that lies wholly past the
    end of the data gets as its channels the indeterminate content of the
    three locals [r], [g] and [b], each its own. *)
Theorem ciq_init_accepts_truncated_data (w : World) (k : Z) (file : PPM)
    (ctx : Context) (i : nat) :
  input_file w = Some file ->
  ciq_init w k = Some ctx ->
  (i < Z.to_nat (size ctx))%nat ->
  (length (skip_space (data file)) <= 3 * i)%nat ->
  points ctx !! i =
    Some (mkPoint (to_uchar (indet_byte w (3 * i)%nat))
                  (to_uchar (indet_byte w (3 * i + 1)%nat))
                  (to_uchar (indet_byte w (3 * i + 2)%nat)) (-1)).
Proof.
  intros Hfile Hinit Hi Hlen. unfold ciq_init in Hinit. rewrite Hfile in Hinit.
  destruct (negb (malloc_ctx_ok w)); [discriminate|].
  destruct (negb (String.eqb (format file) "P6") || negb (maxval file =? 255));
    [discriminate|].
  destruct (negb (malloc_points_ok w) || negb (malloc_centroids_ok w));
    [discriminate|].
  inversion Hinit; subst ctx; clear Hinit. cbn [points size] in *.
  rewrite read_points_past_end by assumption. reflexivity.
Qed.

Lemma ciq_init_accepts_truncated_data_witness :
  input_file Cases.truncated = Some (mkPPM "P6" 2 1 255 [7; 8; 9]) /\
  ciq_init Cases.truncated 1 = Some Cases.truncated_loaded /\
  Nat.lt 1 (Z.to_nat (size Cases.truncated_loaded)) /\
  Nat.le (length (skip_space (data (mkPPM "P6" 2 1 255 [7; 8; 9])))) 3 /\
  points Cases.truncated_loaded !! 1%nat = Some (mkPoint 7 8 9 (-1)).
Proof.
  assert (H1 : input_file Cases.truncated
                 = Some (mkPPM "P6" 2 1 255 [7; 8; 9])) by reflexivity.
  assert (H2 : ciq_init Cases.truncated 1 = Some Cases.truncated_loaded)
    by reflexivity.
  assert (H3 : Nat.lt 1 (Z.to_nat (size Cases.truncated_loaded)))
    by (simpl; lia).
  assert (H4 : Nat.le
                 (length (skip_space (data (mkPPM "P6" 2 1 255 [7; 8; 9]))))
                 3)
    by (simpl; lia).
  repeat (split; [assumption|]).
  exact (ciq_init_accepts_truncated_data Cases.truncated 1 _ _ 1%nat
           H1 H2 H3 H4).
Defined.

(** ** ciq_clustering *)

Lemma nearest_from_same_color (p q : Point) (cs : list Centroid)
    (j mindist label : Z) :
  color p = color q ->
  nearest_from p cs j mindist label = nearest_from q cs j mindist label.
Proof.
  intros Hc. revert j mindist label.
  induction cs as [|c cs IH]; intros j mindist label; simpl; [reflexivity|].
  rewrite (ciq_distance_same_color p q c Hc).
  destruct (ciq_distance q c <? mindist); apply IH.
Qed.

Lemma assign_same_color_input (cs : list Centroid) (p q : Point) :
  color p = color q -> cluster (assign cs p) = cluster (assign cs q).
Proof.
  intros Hc. destruct cs as [|c0 rest]; simpl; [reflexivity|].
  rewrite (ciq_distance_same_color p q c0 Hc).
  apply nearest_from_same_color. exact Hc.
Qed.

Lemma assign_ext (cs : list Centroid) (p q : Point) :
  color p = color q -> assign cs p = assign cs q.
Proof.
  intros Hc. pose proof (assign_same_color_input cs p q Hc) as Hl.
  unfold color in Hc. inversion Hc as [[Hr Hg Hb]].
  destruct cs as [|c0 rest]; unfold assign, set_cluster in *;
    cbn [cluster] in Hl; rewrite Hr, Hg, Hb; [reflexivity|].
  f_equal. exact Hl.
Qed.

Lemma assign_idempotent (cs : list Centroid) (p : Point) :
  assign cs (assign cs p) = assign cs p.
Proof. apply assign_ext. apply assign_same_color. Qed.

Lemma map_assign_ext (cs : list Centroid) (ps qs : list Point) :
  map color ps = map color qs -> map (assign cs) ps = map (assign cs) qs.
Proof.
  revert qs. induction ps as [|p ps IH]; intros [|q qs] Hc;
    try discriminate; [reflexivity|].
  simpl in Hc.
  assert (Hp : color p = color q) by congruence.
  assert (Hrest : map color ps = map color qs) by congruence.
  simpl. rewrite (assign_ext cs p q Hp), (IH qs Hrest). reflexivity.
Qed.

(** X5: a second pass of the Assigner over the same centroids changes
    nothing, and more generally the labels a pass gives depend on the
    colours of the points and on the centroids, not on the labels the
    points had. *)
Theorem ciq_clustering_idempotent (ctx : Context) :
  ciq_clustering (ciq_clustering ctx) = ciq_clustering ctx /\
  forall ps : list Point,
    map color ps = map color (points ctx) ->
    ciq_clustering (set_points ctx ps) = ciq_clustering ctx.
Proof.
  split.
  - unfold ciq_clustering, set_points; simpl. f_equal.
    rewrite map_map. apply map_ext. intros p. apply assign_idempotent.
  - intros ps Hc. unfold ciq_clustering, set_points; simpl. f_equal.
    apply map_assign_ext. exact Hc.
Qed.

Lemma assign_exact (cs : list Centroid) (p : Point) (j : nat) (c : Centroid) :
  byte_color p -> List.Forall byte_color cs ->
  cs !! j = Some c -> color c = color p ->
  exists c', cs !! Z.to_nat (cluster (assign cs p)) = Some c' /\
             color c' = color p.
Proof.
  intros Hp Hcs Hj Hc.
  assert (Hne : cs <> []) by (intros ->; discriminate).
  destruct (assign_nearest cs p Hne) as [_ (c' & Hc' & Hmin)].
  exists c'. split; [exact Hc'|].
  destruct (Hmin j c Hj) as [Hle _].
  assert (H0 : ciq_distance p c = 0) by (apply ciq_distance_same; congruence).
  assert (Hb : byte_color c').
  { rewrite List.Forall_forall in Hcs. apply Hcs.
    apply list_elem_of_In. eapply list_elem_of_lookup_2. exact Hc'. }
  pose proof (ciq_distance_nonneg p c' Hp Hb) as Hn.
  symmetry. apply (ciq_distance_zero p c' Hp Hb). lia.
Qed.

(** X6: among centroids whose channels are bytes, a point of byte channels
    whose colour is the colour of some centroid is assigned to a centroid of
    exactly that colour (the first one at distance 0). *)
Theorem assigner_keeps_palette_colours (ctx : Context) (i j : nat)
    (p : Point) (c : Centroid) :
  byte_color p -> List.Forall byte_color (centroids ctx) ->
  points ctx !! i = Some p ->
  centroids ctx !! j = Some c -> color c = color p ->
  exists p' c',
    points (ciq_clustering ctx) !! i = Some p' /\
    centroids ctx !! Z.to_nat (cluster p') = Some c' /\
    color c' = color p /\ ciq_distance p c' = 0.
Proof.
  intros Hb Hcs Hp Hj Hc.
  destruct (assign_exact (centroids ctx) p j c Hb Hcs Hj Hc)
    as (c' & Hc' & Hcol).
  exists (assign (centroids ctx) p), c'.
  rewrite ciq_clustering_lookup, Hp.
  split; [reflexivity|]. split; [exact Hc'|]. split; [exact Hcol|].
  apply ciq_distance_same. congruence.
Qed.

Lemma assigner_keeps_palette_colours_witness :
  byte_color (mkPoint 8 8 8 (-1)) /\
  List.Forall byte_color (centroids Cases.exact) /\
  points Cases.exact !! 0%nat = Some (mkPoint 8 8 8 (-1)) /\
  centroids Cases.exact !! 1%nat = Some (mkPoint 8 8 8 0) /\
  color (mkPoint 8 8 8 0) = color (mkPoint 8 8 8 (-1)) /\
  exists p' c',
    points (ciq_clustering Cases.exact) !! 0%nat = Some p' /\
    centroids Cases.exact !! Z.to_nat (cluster p') = Some c' /\
    color c' = color (mkPoint 8 8 8 (-1)) /\
    ciq_distance (mkPoint 8 8 8 (-1)) c' = 0.
Proof.
  assert (H0 : byte_color (mkPoint 8 8 8 (-1)))
    by (unfold byte_color; simpl; lia).
  assert (Hcs : List.Forall byte_color (centroids Cases.exact))
    by (repeat (constructor; [unfold byte_color; simpl; lia|]); constructor).
  assert (H1 : points Cases.exact !! 0%nat = Some (mkPoint 8 8 8 (-1)))
    by reflexivity.
  assert (H2 : centroids Cases.exact !! 1%nat = Some (mkPoint 8 8 8 0))
    by reflexivity.
  assert (H3 : color (mkPoint 8 8 8 0) = color (mkPoint 8 8 8 (-1)))
    by reflexivity.
  repeat (split; [assumption|]).
  exact (assigner_keeps_palette_colours Cases.exact 0 1 _ _ H0 Hcs H1 H2 H3).
Defined.

(** ** ciq_remap *)

Lemma flat_map_ext_in {A B : Type} (f h : A -> list B) (l : list A) :
  (forall x, In x l -> f x = h x) -> flat_map f l = flat_map h l.
Proof.
  induction l as [|x l IH]; intros H; simpl; [reflexivity|].
  rewrite (H x) by (left; reflexivity).
  rewrite IH by (intros y Hy; apply H; right; exact Hy). reflexivity.
Qed.

Lemma flat_map_map {A B C : Type} (h : A -> B) (f : B -> list C)
    (l : list A) :
  flat_map f (map h l) = flat_map (fun x => f (h x)) l.
Proof.
  induction l as [|x l IH]; simpl; [reflexivity|]. rewrite IH. reflexivity.
Qed.

(** X7: when every centroid has byte channels and every pixel is a byte
    colour that occurs among the centroids, a pass of the Assigner followed
    by [ciq_remap] writes the pixels of the input back unchanged. *)
Theorem remap_reproduces_palette_image (w : World) (ctx : Context) :
  List.Forall byte_color (centroids ctx) ->
  (forall p, In p (points ctx) ->
     byte_color p /\
     exists (j : nat) (c : Centroid),
       centroids ctx !! j = Some c /\ color c = color p) ->
  body (image_of w (ciq_clustering ctx)) = flat_map channels (points ctx).
Proof.
  intros Hcs H. unfold image_of, ciq_clustering, set_points.
  cbn [body points centroids].
  rewrite flat_map_map. apply flat_map_ext_in. intros p Hp.
  destruct (H p Hp) as [Hbyte (j & c & Hj & Hc)].
  destruct (assign_exact (centroids ctx) p j c Hbyte Hcs Hj Hc)
    as (c' & Hc' & Hcol).
  destruct Hbyte as (Hr & Hg & Hb).
  unfold pixel_bytes.
  assert (Hat : at_index (centroids ctx)
                  (cluster (assign (centroids ctx) p)) (indet_read w) = c').
  { assert (Hne : centroids ctx <> []) by (intros E; rewrite E in Hj; discriminate).
    pose proof (assign_range (centroids ctx) p Hne) as Hrange.
    pose proof (at_index_lookup (centroids ctx) _ (indet_read w) Hrange) as E.
    unfold Centroid in *. rewrite Hc' in E. injection E as E.
    symmetry. exact E. }
  rewrite Hat. unfold rgb_bytes, channels.
  unfold color in Hcol. inversion Hcol as [[Er Eg Eb]].
  rewrite Er, Eg, Eb, !to_uchar_byte by assumption. reflexivity.
Qed.

Lemma remap_reproduces_palette_image_witness :
  List.Forall byte_color (centroids Cases.exact) /\
  (forall p, In p (points Cases.exact) ->
     byte_color p /\
     exists (j : nat) (c : Centroid),
       centroids Cases.exact !! j = Some c /\ color c = color p) /\
  body (image_of Cases.truncated (ciq_clustering Cases.exact))
    = [8; 8; 8; 1; 1; 1].
Proof.
  assert (Hcs : List.Forall byte_color (centroids Cases.exact))
    by (repeat (constructor; [unfold byte_color; simpl; lia|]); constructor).
  assert (H : forall p, In p (points Cases.exact) ->
     byte_color p /\
     exists (j : nat) (c : Centroid),
       centroids Cases.exact !! j = Some c /\ color c = color p).
  { intros p [<-|[<-|[]]].
    - split; [unfold byte_color; simpl; lia|].
      exists 1%nat, (mkPoint 8 8 8 0). split; reflexivity.
    - split; [unfold byte_color; simpl; lia|].
      exists 0%nat, (mkPoint 1 1 1 0). split; reflexivity. }
  split; [exact Hcs|]. split; [exact H|].
  exact (remap_reproduces_palette_image Cases.truncated Cases.exact Hcs H).
Defined.

(** ** ciq_init_centroids *)

Lemma running_sum_0 (d : Z) (ds : list Z) : running_sum (d :: ds) 0 = d.
Proof. unfold running_sum. simpl take. rewrite sum_Z_cons. unfold sum_Z. simpl. lia. Qed.

Lemma running_sum_S (d : Z) (ds : list Z) (j : nat) :
  running_sum (d :: ds) (S j) = d + running_sum ds j.
Proof. unfold running_sum. simpl take. apply sum_Z_cons. Qed.

Lemma select_point_from (c t : Z) (ds : list Z) (pts : list Point) :
  length ds = length pts ->
  match select_point c t ds pts with
  | Some p =>
      exists j : nat, pts !! j = Some p /\
        t <= c + running_sum ds j /\
        forall j', (j' < j)%nat -> c + running_sum ds j' < t
  | None => forall j, (j < length pts)%nat -> c + running_sum ds j < t
  end.
Proof.
  revert c pts. induction ds as [|d ds IH]; intros c [|p pts] Hlen;
    try discriminate; simpl.
  - intros j Hj. lia.
  - destruct (t <=? c + d) eqn:Hle.
    + apply Z.leb_le in Hle. exists 0%nat.
      split; [reflexivity|]. rewrite running_sum_0.
      split; [exact Hle | intros j' Hj'; lia].
    + apply Z.leb_gt in Hle.
      specialize (IH (c + d) pts ltac:(simpl in Hlen; lia)).
      destruct (select_point (c + d) t ds pts) as [q|].
      * destruct IH as (j & Hj & Hreach & Hbefore).
        exists (S j). split; [exact Hj|].
        rewrite running_sum_S. split; [lia|].
        intros [|j'] Hj'.
        -- rewrite running_sum_0. lia.
        -- rewrite running_sum_S. specialize (Hbefore j' ltac:(lia)). lia.
      * intros [|j] Hj.
        -- rewrite running_sum_0. lia.
        -- rewrite running_sum_S. specialize (IH j ltac:(lia)). lia.
Qed.

(** X8: the scan of the Seeder selects the first point at which the running
    sum of the weights reaches [random_choice], and selects no point (the
    loop ends without a [break], centroid [i] keeps what it held) exactly
    when [random_choice] exceeds every running sum. *)
Theorem select_point_first_reaching (t : Z) (ds : list Z) (pts : list Point) :
  length ds = length pts ->
  (forall p, select_point 0 t ds pts = Some p ->
     exists j : nat, pts !! j = Some p /\
       t <= running_sum ds j /\
       forall j', (j' < j)%nat -> running_sum ds j' < t) /\
  (select_point 0 t ds pts = None <->
     forall j, (j < length pts)%nat -> running_sum ds j < t).
Proof.
  intros Hlen. pose proof (select_point_from 0 t ds pts Hlen) as H.
  destruct (select_point 0 t ds pts) as [q|].
  - destruct H as (j & Hj & Hreach & Hbefore). split.
    + intros p Hp. inversion Hp; subst p. exists j.
      split; [exact Hj|]. split; [lia|].
      intros j' Hj'. specialize (Hbefore j' Hj'). lia.
    + split; [discriminate|]. intros Hall.
      apply lookup_lt_Some in Hj as Hlt. specialize (Hall j Hlt). lia.
  - split; [discriminate|]. split; [|reflexivity].
    intros _ j Hj. specialize (H j Hj). lia.
Qed.

Lemma select_point_first_reaching_witness :
  length [0; 100; 1] = length Runs.spread_points /\
  (select_point 0 200 [0; 100; 1] Runs.spread_points = None <->
     forall j, (j < length Runs.spread_points)%nat ->
       running_sum [0; 100; 1] j < 200).
Proof.
  assert (H : length [0; 100; 1] = length Runs.spread_points) by reflexivity.
  split; [exact H|].
  exact (proj2 (select_point_first_reaching 200 [0; 100; 1]
                  Runs.spread_points H)).
Defined.

Lemma select_point_In (c t : Z) (ds : list Z) (pts : list Point) (p : Point) :
  select_point c t ds pts = Some p -> In p pts.
Proof.
  revert c pts. induction ds as [|d ds IH]; intros c [|q pts] H;
    try discriminate. simpl in H.
  destruct (t <=? c + d).
  - inversion H; subst q. left. reflexivity.
  - right. eapply IH. exact H.
Qed.

Lemma seed_step_origin (w : World) (pts : list Point) (i : nat)
    (cs : list Centroid) (i' : nat) (c : Centroid) :
  seed_step w pts i cs !! i' = Some c ->
  (exists p, In p pts /\ c = centroid_of p) \/ cs !! i' = Some c.
Proof.
  unfold seed_step.
  destruct (select_point _ _ _ _) as [p|] eqn:Hsel; [|auto].
  intros H. destruct (decide (i = i')) as [->|Hne].
  - destruct (decide (i' < length cs)%nat) as [Hlt|Hge].
    + rewrite list_lookup_insert_eq in H by exact Hlt.
      inversion H; subst c. left. exists p.
      split; [eapply select_point_In; exact Hsel | reflexivity].
    + rewrite list_insert_ge in H by lia. right. exact H.
  - rewrite list_lookup_insert_ne in H by exact Hne. right. exact H.
Qed.

Lemma seed_loop_origin (w : World) (pts : list Point) (n i : nat)
    (cs : list Centroid) (i' : nat) (c : Centroid) :
  seed_loop w pts n i cs !! i' = Some c ->
  (exists p, In p pts /\ c = centroid_of p) \/ cs !! i' = Some c.
Proof.
  revert i cs. induction n as [|n IH]; intros i cs H; simpl in H; [auto|].
  destruct (IH _ _ H) as [Hp|Hs]; [left; exact Hp|].
  eapply seed_step_origin. exact Hs.
Qed.

Lemma seed_step_keeps_first (w : World) (pts : list Point) (i : nat)
    (cs : list Centroid) :
  (1 <= i)%nat -> seed_step w pts i cs !! 0%nat = cs !! 0%nat.
Proof.
  intros Hi. unfold seed_step.
  destruct (select_point _ _ _ _); [|reflexivity].
  apply list_lookup_insert_ne. lia.
Qed.

Lemma seed_loop_keeps_first (w : World) (pts : list Point) (n i : nat)
    (cs : list Centroid) :
  (1 <= i)%nat -> seed_loop w pts n i cs !! 0%nat = cs !! 0%nat.
Proof.
  revert i cs. induction n as [|n IH]; intros i cs Hi; simpl; [reflexivity|].
  rewrite IH by lia. apply seed_step_keeps_first. exact Hi.
Qed.

Lemma seed_step_other (w : World) (pts : list Point) (i i' : nat)
    (cs : list Centroid) :
  i <> i' -> seed_step w pts i cs !! i' = cs !! i'.
Proof.
  intros Hne. unfold seed_step.
  destruct (select_point _ _ _ _); [|reflexivity].
  apply list_lookup_insert_ne. exact Hne.
Qed.

Lemma seed_loop_outside (w : World) (pts : list Point) (n i i' : nat)
    (cs : list Centroid) :
  (i' < i \/ i + n <= i')%nat -> seed_loop w pts n i cs !! i' = cs !! i'.
Proof.
  revert i cs. induction n as [|n IH]; intros i cs Hi; simpl; [reflexivity|].
  rewrite IH by lia. apply seed_step_other. lia.
Qed.

Lemma seed_loop_split (w : World) (pts : list Point) (a n i : nat)
    (cs : list Centroid) :
  seed_loop w pts (a + n) i cs
  = seed_loop w pts n (i + a) (seed_loop w pts a i cs).
Proof.
  revert i cs. induction a as [|a IH]; intros i cs; simpl.
  - rewrite Nat.add_0_r. reflexivity.
  - rewrite IH. f_equal. lia.
Qed.

Lemma seed_loop_at (w : World) (pts : list Point) (n i : nat)
    (cs : list Centroid) :
  (1 <= i <= n)%nat ->
  seed_loop w pts n 1 cs !! i
  = seed_step w pts i (seed_loop w pts (i - 1) 1 cs) !! i.
Proof.
  intros Hi.
  replace n with ((i - 1) + S (n - i))%nat at 1 by lia.
  rewrite seed_loop_split. cbn [seed_loop].
  replace (1 + (i - 1))%nat with i by lia.
  apply seed_loop_outside. lia.
Qed.

Lemma first_centroid (w : World) (ctx ctx1 : Context) :
  ciq_init_centroids w ctx = Returned (Some ctx1) ->
  wf_context ctx -> 1 <= size ctx -> 1 <= K ctx -> 0 <= rand w 0%nat ->
  exists p,
    points ctx !! Z.to_nat (rand w 0%nat mod size ctx) = Some p /\
    centroids ctx1 !! 0%nat = Some (centroid_of p).
Proof.
  intros Hseed [Hp Hk] Hsz HK H0. unfold ciq_init_centroids in Hseed.
  destruct (negb (malloc_distances_ok w)); [discriminate|].
  destruct (size ctx =? 0); [discriminate|].
  cbv zeta in Hseed. inversion Hseed; subst ctx1; clear Hseed.
  cbn [centroids set_centroids].
  rewrite Z.rem_mod_nonneg by lia.
  assert (Hidx : 0 <= rand w 0%nat mod size ctx
                 < Z.of_nat (length (points ctx)))
    by (rewrite Hp; apply Z.mod_pos_bound; lia).
  exists (at_index (points ctx) (rand w 0%nat mod size ctx) (indet_read w)).
  split; [apply at_index_lookup; exact Hidx|].
  rewrite seed_loop_keeps_first by lia.
  apply list_lookup_insert_eq. lia.
Qed.

(** X9: after the seeding, centroid 0 is the colour of the point at index
    [rand() % size]; and for every later index [i], when the scan of round
    [i] stops at a point, centroid [i] is the colour of that point of the
    image, and when the scan stops nowhere, centroid [i] is the entry the
    array held before the seeding. *)
Theorem seeded_centroids_come_from_points (w : World) (ctx ctx1 : Context) :
  ciq_init_centroids w ctx = Returned (Some ctx1) ->
  wf_context ctx -> 1 <= size ctx -> 1 <= K ctx -> 0 <= rand w 0%nat ->
  (exists p,
     points ctx !! Z.to_nat (rand w 0%nat mod size ctx) = Some p /\
     centroids ctx1 !! 0%nat = Some (centroid_of p)) /\
  forall i : nat, (1 <= i < Z.to_nat (K ctx))%nat ->
    match scan w ctx i with
    | Some p => In p (points ctx) /\
                centroids ctx1 !! i = Some (centroid_of p)
    | None => centroids ctx1 !! i = centroids ctx !! i
    end.
Proof.
  intros Hseed Hwf Hsz HK H0.
  split; [exact (first_centroid w ctx ctx1 Hseed Hwf Hsz HK H0)|].
  intros i Hi. destruct Hwf as [Hp Hk].
  unfold ciq_init_centroids in Hseed.
  destruct (negb (malloc_distances_ok w)); [discriminate|].
  destruct (size ctx =? 0); [discriminate|].
  cbv zeta in Hseed. inversion Hseed; subst ctx1; clear Hseed.
  cbn [centroids set_centroids].
  rewrite seed_loop_at by lia.
  unfold scan, seeded_before. cbv zeta.
  set (cs0 := <[ 0%nat := _ ]> (centroids ctx)).
  set (prev := seed_loop w (points ctx) (i - 1) 1 cs0).
  unfold seed_step. cbv zeta. fold prev.
  destruct (select_point _ _ _ _) as [p|] eqn:Hsel.
  - split; [eapply select_point_In; exact Hsel|].
    apply list_lookup_insert_eq.
    unfold prev. rewrite seed_loop_length. unfold cs0.
    rewrite length_insert. lia.
  - unfold prev. rewrite seed_loop_outside by lia.
    unfold cs0. apply list_lookup_insert_ne. lia.
Qed.

Lemma seeded_centroids_come_from_points_witness :
  ciq_init_centroids (Runs.twins (fun _ => zero_point)) Runs.twins_loaded
    = Returned (Some Runs.twins_seeded) /\
  wf_context Runs.twins_loaded /\ 1 <= size Runs.twins_loaded /\
  1 <= K Runs.twins_loaded /\
  0 <= rand (Runs.twins (fun _ => zero_point)) 0%nat /\
  forall i : nat, (1 <= i < Z.to_nat (K Runs.twins_loaded))%nat ->
    match scan (Runs.twins (fun _ => zero_point)) Runs.twins_loaded i with
    | Some p => In p (points Runs.twins_loaded) /\
                centroids Runs.twins_seeded !! i = Some (centroid_of p)
    | None => centroids Runs.twins_seeded !! i
              = centroids Runs.twins_loaded !! i
    end.
Proof.
  assert (H1 : ciq_init_centroids (Runs.twins (fun _ => zero_point))
                 Runs.twins_loaded = Returned (Some Runs.twins_seeded))
    by reflexivity.
  assert (H2 : wf_context Runs.twins_loaded) by (split; reflexivity).
  assert (H3 : 1 <= size Runs.twins_loaded) by (simpl; lia).
  assert (H4 : 1 <= K Runs.twins_loaded) by (simpl; lia).
  assert (H5 : 0 <= rand (Runs.twins (fun _ => zero_point)) 0%nat)
    by (simpl; lia).
  repeat (split; [assumption|]).
  exact (proj2 (seeded_centroids_come_from_points _ _ _ H1 H2 H3 H4 H5)).
Defined.

Lemma seed_choice_zero_draw (w : World) (i : nat) (total : Z) :
  rand w i = 0 ->
  RAND_MAX w = 2147483647 \/ RAND_MAX w = 32767 ->
  seed_choice w i total = 0.
Proof.
  intros Hr Hm. unfold seed_choice. rewrite Hr.
  destruct Hm as [-> | ->].
  - change (Double.div (Double.of_Z 0) (Double.of_Z 2147483647))
      with (S754_zero false).
    destruct (Double.of_Z total) as [s| s | | s m e]; destruct_all bool;
      reflexivity.
  - change (Double.div (Double.of_Z 0) (Double.of_Z 32767))
      with (S754_zero false).
    destruct (Double.of_Z total) as [s| s | | s m e]; destruct_all bool;
      reflexivity.
Qed.

(** X10: when [rand()] returns 0 in the round for centroid [i], with
    [RAND_MAX] 2147483647 or 32767, the threshold is 0 and the scan stops
    at point 0 at once, whatever its weight: centroid [i] becomes the
    colour of the first pixel, also when an earlier centroid already has
    it.  The first pixel and centroid [i - 1] have byte channels, as the
    loaded pixels and the centroids seeded from them have. *)
Theorem zero_draw_selects_first_point (w : World) (p : Point)
    (pts : list Point) (i : nat) (cs : list Centroid) :
  byte_color p -> byte_color (nth (i - 1) cs (indet_read w)) ->
  rand w i = 0 ->
  RAND_MAX w = 2147483647 \/ RAND_MAX w = 32767 ->
  seed_step w (p :: pts) i cs = <[ i := centroid_of p ]> cs.
Proof.
  intros Hp Hc Hr Hm. unfold seed_step.
  rewrite (seed_choice_zero_draw w i _ Hr Hm).
  unfold seed_distances. cbn [map select_point].
  pose proof (ciq_distance_nonneg p (nth (i - 1) cs (indet_read w)) Hp Hc)
    as Hn.
  replace (0 <=? 0 + ciq_distance p (nth (i - 1) cs (indet_read w)))
    with true by (symmetry; apply Z.leb_le; lia).
  reflexivity.
Qed.

Lemma zero_draw_selects_first_point_witness :
  byte_color (mkPoint 110 0 0 (-1)) /\
  byte_color (nth (1 - 1) [mkPoint 110 0 0 0; zero_point]
                (indet_read (Runs.twins (fun _ => zero_point)))) /\
  rand (Runs.twins (fun _ => zero_point)) 1%nat = 0 /\
  (RAND_MAX (Runs.twins (fun _ => zero_point)) = 2147483647 \/
   RAND_MAX (Runs.twins (fun _ => zero_point)) = 32767) /\
  seed_step (Runs.twins (fun _ => zero_point))
    (mkPoint 110 0 0 (-1) :: [mkPoint 110 0 0 (-1); mkPoint 120 0 0 (-1)]) 1
    [mkPoint 110 0 0 0; zero_point]
  = [mkPoint 110 0 0 0; mkPoint 110 0 0 0].
Proof.
  assert (Hp : byte_color (mkPoint 110 0 0 (-1)))
    by (unfold byte_color; simpl; lia).
  assert (Hc : byte_color (nth (1 - 1) [mkPoint 110 0 0 0; zero_point]
                 (indet_read (Runs.twins (fun _ => zero_point)))))
    by (unfold byte_color; simpl; lia).
  assert (H1 : rand (Runs.twins (fun _ => zero_point)) 1%nat = 0)
    by reflexivity.
  assert (H2 : RAND_MAX (Runs.twins (fun _ => zero_point)) = 2147483647 \/
               RAND_MAX (Runs.twins (fun _ => zero_point)) = 32767)
    by (left; reflexivity).
  repeat (split; [assumption|]).
  exact (zero_draw_selects_first_point (Runs.twins (fun _ => zero_point))
           (mkPoint 110 0 0 (-1))
           [mkPoint 110 0 0 (-1); mkPoint 120 0 0 (-1)]
           1 [mkPoint 110 0 0 0; zero_point] Hp Hc H1 H2).
Defined.

(** ** ciq_update_centroids *)

(** X11: after the first loop of the Updater, for every index [i] below
    [K], [cluster_size[i]] is the number of points labelled [i] and
    [sum_r[i]], [sum_g[i]], [sum_b[i]] are the sums of their channels;
    points whose label is not an index count nowhere. *)
Theorem accumulators_are_cluster_sums (ctx : Context) (i : nat) :
  (i < Z.to_nat (K ctx))%nat ->
  nth i (cluster_size (sums_of ctx)) 0 = count (points ctx) (Z.of_nat i) /\
  nth i (sum_r (sums_of ctx)) 0 = channel_sum r (points ctx) (Z.of_nat i) /\
  nth i (sum_g (sums_of ctx)) 0 = channel_sum g (points ctx) (Z.of_nat i) /\
  nth i (sum_b (sums_of ctx)) 0 = channel_sum b (points ctx) (Z.of_nat i).
Proof.
  intros Hi. unfold sums_of.
  destruct (accumulate_spec (Z.to_nat (K ctx)) (points ctx) i Hi)
    as (Hr & Hg & Hb & Hc & _).
  tauto.
Qed.

Lemma accumulators_are_cluster_sums_witness :
  (0 < Z.to_nat (K Runs.twins_assigned))%nat /\
  nth 0 (cluster_size (sums_of Runs.twins_assigned)) 0 = 3 /\
  nth 0 (sum_r (sums_of Runs.twins_assigned)) 0 = 340.
Proof.
  assert (H : (0 < Z.to_nat (K Runs.twins_assigned))%nat) by (simpl; lia).
  split; [exact H|].
  destruct (accumulators_are_cluster_sums Runs.twins_assigned 0 H)
    as (Hc & Hr & _).
  split; [rewrite Hc | rewrite Hr]; reflexivity.
Defined.

Lemma sum_Z_insert (a : list Z) (j : nat) (x : Z) :
  (j < length a)%nat -> sum_Z (<[ j := x ]> a) = sum_Z a - nth j a 0 + x.
Proof.
  revert j. induction a as [|y a IH]; intros j Hj; [simpl in Hj; lia|].
  destruct j as [|j]; simpl.
  - rewrite !sum_Z_cons. lia.
  - rewrite !sum_Z_cons, IH by (simpl in Hj; lia). lia.
Qed.

Lemma sum_Z_add_at (j v : Z) (a : list Z) :
  0 <= j < Z.of_nat (length a) -> sum_Z (add_at j v a) = sum_Z a + v.
Proof.
  intros Hj. unfold add_at.
  replace ((0 <=? j) && (j <? Z.of_nat (length a))) with true
    by (symmetry; apply andb_true_iff; split;
        [apply Z.leb_le | apply Z.ltb_lt]; lia).
  rewrite sum_Z_insert by lia. lia.
Qed.

Lemma sum_Z_repeat_0 (k : nat) : sum_Z (repeat 0 k) = 0.
Proof.
  induction k as [|k IH]; [reflexivity|].
  simpl repeat. rewrite sum_Z_cons, IH. reflexivity.
Qed.

Lemma fold_tally_totals (k : nat) (pts : list Point) (s : Sums) :
  sums_length k s ->
  List.Forall (fun p => 0 <= cluster p < Z.of_nat k) pts ->
  let s' := fold_left tally pts s in
  sum_Z (cluster_size s') = sum_Z (cluster_size s) + Z.of_nat (length pts) /\
  sum_Z (sum_r s') = sum_Z (sum_r s) + sum_Z (map r pts) /\
  sum_Z (sum_g s') = sum_Z (sum_g s) + sum_Z (map g pts) /\
  sum_Z (sum_b s') = sum_Z (sum_b s) + sum_Z (map b pts).
Proof.
  revert s. induction pts as [|p pts IH]; intros s Hlen Hall.
  - simpl. change (sum_Z []) with 0. repeat split; lia.
  - inversion Hall as [|? ? Hp Hrest]; subst.
    destruct (IH (tally s p) (tally_length k s p Hlen) Hrest)
      as (Hc & Hr & Hg & Hb).
    cbn [fold_left]. cbv zeta. rewrite Hc, Hr, Hg, Hb.
    destruct Hlen as (L1 & L2 & L3 & L4).
    unfold tally; cbn [cluster_size sum_r sum_g sum_b].
    rewrite !sum_Z_add_at by lia.
    cbn [map length]. rewrite !sum_Z_cons. repeat split; lia.
Qed.

(** X12: when every label is an index, the first loop of the Updater counts
    every point exactly once: the cluster sizes add up to the number of
    points and the per-cluster channel sums add up to the channel sums of
    the whole image. *)
Theorem accumulators_partition_points (ctx : Context) :
  0 <= K ctx -> labelled ctx ->
  sum_Z (cluster_size (sums_of ctx)) = Z.of_nat (length (points ctx)) /\
  sum_Z (sum_r (sums_of ctx)) = sum_Z (map r (points ctx)) /\
  sum_Z (sum_g (sums_of ctx)) = sum_Z (map g (points ctx)) /\
  sum_Z (sum_b (sums_of ctx)) = sum_Z (map b (points ctx)).
Proof.
  intros HK Hlab. unfold sums_of, accumulate.
  assert (Hz : sums_length (Z.to_nat (K ctx)) (zero_sums (Z.to_nat (K ctx))))
    by (unfold sums_length, zero_sums; simpl; rewrite !repeat_length; tauto).
  assert (Hall : List.Forall
            (fun p => 0 <= cluster p < Z.of_nat (Z.to_nat (K ctx)))
            (points ctx))
    by (rewrite Z2Nat.id by exact HK; exact Hlab).
  destruct (fold_tally_totals _ _ _ Hz Hall) as (Hc & Hr & Hg & Hb).
  rewrite Hc, Hr, Hg, Hb. unfold zero_sums; simpl.
  rewrite sum_Z_repeat_0. repeat split; lia.
Qed.

Lemma accumulators_partition_points_witness :
  0 <= K Runs.twins_assigned /\ labelled Runs.twins_assigned /\
  sum_Z (cluster_size (sums_of Runs.twins_assigned)) = 3.
Proof.
  assert (H1 : 0 <= K Runs.twins_assigned) by (simpl; lia).
  assert (H2 : labelled Runs.twins_assigned).
  { unfold labelled. simpl.
    repeat (constructor; [simpl; lia|]). constructor. }
  split; [exact H1|]. split; [exact H2|].
  exact (proj1 (accumulators_partition_points Runs.twins_assigned H1 H2)).
Defined.



(** X14: for a cluster that has points, the Updater writes in each channel
    the product of the factor [1.0 / count] and the channel sum of the
    cluster, computed in binary64 and truncated toward zero. *)
Theorem update_writes_scaled_sums (new0 : Centroid) (ctx : Context)
    (i : nat) :
  wf_context ctx -> (i < length (centroids ctx))%nat ->
  0 < count (points ctx) (Z.of_nat i) ->
  color <$> centroids (snd (ciq_update_centroids new0 ctx)) !! i =
    Some (scaled_mean (count (points ctx) (Z.of_nat i))
                      (channel_sum r (points ctx) (Z.of_nat i)),
          scaled_mean (count (points ctx) (Z.of_nat i))
                      (channel_sum g (points ctx) (Z.of_nat i)),
          scaled_mean (count (points ctx) (Z.of_nat i))
                      (channel_sum b (points ctx) (Z.of_nat i))).
Proof. apply ciq_update_centroids_nonempty. Qed.

Lemma update_writes_scaled_sums_witness :
  wf_context Runs.twins_assigned /\
  (0 < length (centroids Runs.twins_assigned))%nat /\
  0 < count (points Runs.twins_assigned) (Z.of_nat 0) /\
  color <$> centroids (snd (ciq_update_centroids zero_point
                              Runs.twins_assigned)) !! 0%nat
    = Some (113, 0, 0).
Proof.
  assert (Hwf : wf_context Runs.twins_assigned) by (split; reflexivity).
  assert (Hi : (0 < length (centroids Runs.twins_assigned))%nat)
    by (simpl; lia).
  assert (Hc : 0 < count (points Runs.twins_assigned) (Z.of_nat 0))
    by reflexivity.
  repeat (split; [assumption|]).
  rewrite (update_writes_scaled_sums zero_point _ 0 Hwf Hi Hc).
  vm_compute. reflexivity.
Defined.

Lemma ciq_distance_same_color_r (c x y : Point) :
  color x = color y -> ciq_distance c x = ciq_distance c y.
Proof.
  unfold color, ciq_distance. intros H. inversion H as [[Hr Hg Hb]].
  cbv zeta. rewrite Hr, Hg, Hb. reflexivity.
Qed.

Lemma existsb_moved_same_colors (cs l1 l2 : list Centroid) :
  map color l1 = map color l2 ->
  existsb moved (combine cs l1) = existsb moved (combine cs l2).
Proof.
  revert l1 l2. induction cs as [|c cs IH]; intros [|x l1] [|y l2] H;
    try discriminate; try reflexivity.
  simpl in H.
  assert (Hxy : color x = color y) by congruence.
  assert (Hrest : map color l1 = map color l2) by congruence.
  simpl. unfold moved at 1 3. cbn [fst snd].
  rewrite (ciq_distance_same_color_r c x y Hxy), (IH l1 l2 Hrest).
  reflexivity.
Qed.

Lemma update_color_independent (n1 n2 : Centroid) (ctx : Context) :
  wf_context ctx -> 0 < count (points ctx) 0 ->
  fst (ciq_update_centroids n1 ctx) = fst (ciq_update_centroids n2 ctx) /\
  map color (centroids (snd (ciq_update_centroids n1 ctx))) =
  map color (centroids (snd (ciq_update_centroids n2 ctx))).
Proof.
  intros Hwf H0. rewrite !ciq_update_centroids_eq by exact Hwf.
  cbn [fst snd set_centroids centroids].
  assert (Hcol : map color
            (news (sums_of ctx) (factors_of ctx) (Z.to_nat (K ctx)) 0 n1) =
          map color
            (news (sums_of ctx) (factors_of ctx) (Z.to_nat (K ctx)) 0 n2)).
  { apply list_eq. intros i.
    change (map color) with (fmap (M := list) color).
    rewrite !list_lookup_fmap.
    destruct (decide (i < Z.to_nat (K ctx))%nat) as [Hi|Hi].
    - rewrite !news_lookup by exact Hi. simpl. f_equal.
      apply written_color_independent; assumption.
    - rewrite !(proj2 (lookup_ge_None _ _)) by (rewrite news_length; lia).
      reflexivity. }
  split; [apply existsb_moved_same_colors; exact Hcol | exact Hcol].
Qed.

(** X15: when cluster 0 has points, the uninitialised local [new] is
    assigned before it is read: neither the colours the Updater writes nor
    the change it reports depend on what [new] held on entry. *)
Theorem update_ignores_new_when_cluster_0_has_points (n1 n2 : Centroid)
    (ctx : Context) :
  wf_context ctx -> 0 < count (points ctx) 0 ->
  fst (ciq_update_centroids n1 ctx) = fst (ciq_update_centroids n2 ctx) /\
  map color (centroids (snd (ciq_update_centroids n1 ctx))) =
  map color (centroids (snd (ciq_update_centroids n2 ctx))).
Proof. apply update_color_independent. Qed.

Lemma update_ignores_new_when_cluster_0_has_points_witness :
  wf_context Runs.twins_assigned /\
  0 < count (points Runs.twins_assigned) 0 /\
  map color (centroids (snd (ciq_update_centroids (mkPoint 1 2 3 4)
                               Runs.twins_assigned))) =
  map color (centroids (snd (ciq_update_centroids zero_point
                               Runs.twins_assigned))).
Proof.
  assert (Hwf : wf_context Runs.twins_assigned) by (split; reflexivity).
  assert (Hc : 0 < count (points Runs.twins_assigned) 0) by reflexivity.
  split; [exact Hwf|]. split; [exact Hc|].
  exact (proj2 (update_ignores_new_when_cluster_0_has_points
                  (mkPoint 1 2 3 4) zero_point _ Hwf Hc)).
Defined.

(** ** ciq_quantize *)

Lemma nearest_from_at_zero (p : Point) (cs : list Centroid) (j label : Z) :
  byte_color p -> List.Forall byte_color cs ->
  nearest_from p cs j 0 label = label.
Proof.
  intros Hp Hcs. revert j.
  induction cs as [|c cs IH]; intros j; simpl; [reflexivity|].
  inversion Hcs as [|? ? Hc Hrest]; subst.
  pose proof (ciq_distance_nonneg p c Hp Hc) as Hn.
  replace (ciq_distance p c <? 0) with false
    by (symmetry; apply Z.ltb_ge; exact Hn).
  apply IH. exact Hrest.
Qed.

Lemma count_pos (pts : list Point) (q : Point) (j : Z) :
  In q pts -> cluster q = j -> 0 < count pts j.
Proof.
  intros Hin Hq. induction pts as [|p pts IH]; [destruct Hin|].
  rewrite count_cons. pose proof (count_nonneg pts j) as Hn.
  destruct Hin as [->|Hin].
  - apply Z.eqb_eq in Hq. rewrite Hq. lia.
  - specialize (IH Hin). destruct (cluster p =? j); lia.
Qed.

Lemma seeded_centroids_bytes (w : World) (ctx ctx1 : Context) :
  ciq_init_centroids w ctx = Returned (Some ctx1) ->
  wf_context ctx -> 1 <= size ctx -> 0 <= rand w 0%nat ->
  List.Forall byte_color (points ctx) ->
  List.Forall byte_color (centroids ctx) ->
  List.Forall byte_color (centroids ctx1).
Proof.
  intros Hseed [Hp Hk] Hsz H0 Hpts Hcs.
  unfold ciq_init_centroids in Hseed.
  destruct (negb (malloc_distances_ok w)); [discriminate|].
  destruct (size ctx =? 0); [discriminate|].
  cbv zeta in Hseed. inversion Hseed; subst ctx1; clear Hseed.
  cbn [centroids set_centroids].
  rewrite List.Forall_forall in Hpts, Hcs. apply List.Forall_forall.
  intros c Hin. apply list_elem_of_In, list_elem_of_lookup_1 in Hin.
  destruct Hin as [i Hi].
  assert (Hfrom : forall q, In q (points ctx) -> byte_color (centroid_of q))
    by (intros q Hq; exact (Hpts q Hq)).
  destruct (seed_loop_origin _ _ _ _ _ _ _ Hi) as [(q & Hq & ->)|Hold];
    [apply Hfrom; exact Hq|].
  destruct (decide (i = 0%nat)) as [->|Hne].
  - apply lookup_lt_Some in Hold as Hlt. rewrite length_insert in Hlt.
    rewrite list_lookup_insert_eq in Hold by exact Hlt.
    inversion Hold; subst c. apply Hfrom.
    rewrite Z.rem_mod_nonneg by lia.
    assert (Hidx : 0 <= rand w 0%nat mod size ctx
                   < Z.of_nat (length (points ctx)))
      by (rewrite Hp; apply Z.mod_pos_bound; lia).
    apply list_elem_of_In. eapply list_elem_of_lookup_2.
    apply at_index_lookup. exact Hidx.
  - rewrite list_lookup_insert_ne in Hold by lia.
    apply Hcs. apply list_elem_of_In. eapply list_elem_of_lookup_2. exact Hold.
Qed.

Lemma seeded_cluster_0_has_points (w : World) (ctx ctx1 : Context) :
  ciq_init_centroids w ctx = Returned (Some ctx1) ->
  wf_context ctx -> 1 <= size ctx -> 1 <= K ctx -> 0 <= rand w 0%nat ->
  List.Forall byte_color (points ctx) ->
  List.Forall byte_color (centroids ctx) ->
  0 < count (points (ciq_clustering ctx1)) 0.
Proof.
  intros Hseed Hwf Hsz HK H0 Hpts Hcs.
  pose proof (seeded_centroids_bytes w ctx ctx1 Hseed Hwf Hsz H0 Hpts Hcs)
    as Hcs1.
  destruct (first_centroid w ctx ctx1 Hseed Hwf Hsz HK H0) as (p & Hp & Hc0).
  destruct (ciq_init_centroids_frame w ctx ctx1 Hseed) as [_ Hptseq].
  assert (Hin : In p (points ctx))
    by (apply list_elem_of_In; eapply list_elem_of_lookup_2; exact Hp).
  apply (count_pos _ (assign (centroids ctx1) p)).
  - unfold ciq_clustering; cbn [points set_points]. rewrite Hptseq.
    apply in_map. exact Hin.
  - destruct (centroids ctx1) as [|c0 rest]; [discriminate|].
    simpl in Hc0. inversion Hc0; subst c0.
    unfold assign, set_cluster. cbn [cluster].
    assert (Hd : ciq_distance p (centroid_of p) = 0)
      by (apply ciq_distance_same; reflexivity).
    rewrite Hd. apply nearest_from_at_zero.
    + rewrite List.Forall_forall in Hpts. apply Hpts. exact Hin.
    + inversion Hcs1; assumption.
Qed.

(** X16: in the first round of a run, cluster 0 has a point: the pixel that
    seeded centroid 0 is at distance 0 from it and ties go to the lowest
    index.  Hence the first update never reads the uninitialised local
    [new]: its report and the colours it writes are the same whatever
    [new] held.  The channels of the points and of the centroids before
    the seeding are bytes, as the loaded pixels and the zeroed centroid
    array are. *)
Theorem first_round_cluster_0_has_points (w : World) (ctx ctx1 : Context)
    (n1 n2 : Centroid) :
  ciq_init_centroids w ctx = Returned (Some ctx1) ->
  wf_context ctx -> 1 <= size ctx -> 1 <= K ctx -> 0 <= rand w 0%nat ->
  List.Forall byte_color (points ctx) ->
  List.Forall byte_color (centroids ctx) ->
  0 < count (points (ciq_clustering ctx1)) 0 /\
  fst (ciq_update_centroids n1 (ciq_clustering ctx1)) =
    fst (ciq_update_centroids n2 (ciq_clustering ctx1)) /\
  map color (centroids (snd (ciq_update_centroids n1 (ciq_clustering ctx1)))) =
  map color (centroids (snd (ciq_update_centroids n2 (ciq_clustering ctx1)))).
Proof.
  intros Hseed Hwf Hsz HK H0 Hpts Hcs.
  pose proof (seeded_cluster_0_has_points w ctx ctx1 Hseed Hwf Hsz HK H0
                Hpts Hcs) as Hc.
  split; [exact Hc|].
  apply update_color_independent; [|exact Hc].
  destruct (ciq_init_centroids_frame w ctx ctx1 Hseed) as [Hf _].
  eapply same_frame_wf; [apply ciq_clustering_frame|].
  eapply same_frame_wf; eassumption.
Qed.

Lemma first_round_cluster_0_has_points_witness :
  ciq_init_centroids (Runs.twins (fun _ => zero_point)) Runs.twins_loaded
    = Returned (Some Runs.twins_seeded) /\
  wf_context Runs.twins_loaded /\ 1 <= size Runs.twins_loaded /\
  1 <= K Runs.twins_loaded /\
  0 <= rand (Runs.twins (fun _ => zero_point)) 0%nat /\
  List.Forall byte_color (points Runs.twins_loaded) /\
  List.Forall byte_color (centroids Runs.twins_loaded) /\
  0 < count (points (ciq_clustering Runs.twins_seeded)) 0.
Proof.
  assert (H1 : ciq_init_centroids (Runs.twins (fun _ => zero_point))
                 Runs.twins_loaded = Returned (Some Runs.twins_seeded))
    by reflexivity.
  assert (H2 : wf_context Runs.twins_loaded) by (split; reflexivity).
  assert (H3 : 1 <= size Runs.twins_loaded) by (simpl; lia).
  assert (H4 : 1 <= K Runs.twins_loaded) by (simpl; lia).
  assert (H5 : 0 <= rand (Runs.twins (fun _ => zero_point)) 0%nat)
    by (simpl; lia).
  assert (H6 : List.Forall byte_color (points Runs.twins_loaded))
    by (repeat (constructor; [unfold byte_color; simpl; lia|]); constructor).
  assert (H7 : List.Forall byte_color (centroids Runs.twins_loaded))
    by (repeat (constructor; [unfold byte_color; simpl; lia|]); constructor).
  repeat (split; [assumption|]).
  exact (proj1 (first_round_cluster_0_has_points _ _ _ zero_point zero_point
                  H1 H2 H3 H4 H5 H6 H7)).
Defined.



(** ** ciq_quanization and main *)

Lemma ciq_init_none_iff (w : World) (k : Z) :
  ciq_init w k = None <->
  malloc_ctx_ok w = false \/ input_file w = None \/
  (exists file, input_file w = Some file /\
     (format file <> "P6"%string \/ maxval file <> 255)) \/
  malloc_points_ok w = false \/ malloc_centroids_ok w = false.
Proof.
  unfold ciq_init.
  destruct (malloc_ctx_ok w) eqn:Hctx; cbn [negb]; [|split; auto].
  destruct (input_file w) as [file|] eqn:Hfile; [|split; auto].
  destruct (String.eqb_spec (format file) "P6") as [Hf|Hf]; cbn [negb orb];
    [|split; [intros _|reflexivity];
      right; right; left; exists file; auto].
  destruct (Z.eqb_spec (maxval file) 255) as [Hm|Hm]; cbn [negb orb];
    [|split; [intros _|reflexivity];
      right; right; left; exists file; auto].
  destruct (malloc_points_ok w) eqn:Hpts; cbn [negb orb];
    [|split; [intros _; auto 6|reflexivity]].
  destruct (malloc_centroids_ok w) eqn:Hcs; cbn [negb orb];
    [|split; [intros _; auto 6|reflexivity]].
  split; [discriminate|].
  intros [H|[H|[(f & Hsome & H)|[H|H]]]]; try discriminate.
  inversion Hsome; subst f. destruct H as [H|H]; contradiction.
Qed.

(** A header that announces no pixel: the load succeeds and the run ends
    in the division by zero. *)
Lemma empty_image_traps : main Cases.empty_image 2 = Trapped.
Proof. reflexivity. Qed.

(** X18: [main] leaves with status 1 exactly when the load fails, that is
    when the context, the points or the centroids cannot be allocated, the
    input cannot be opened, the format is not P6 or the maximum is not
    255; then no file is written.  When the load succeeds, the buffer of
    the Seeder is allocated and the [int] product of the width and the
    height is 0, the run ends in the division by zero of
    [rand() % ctx->size] and returns no status.  A run that returns
    otherwise returns 0, whatever [ciq_quantize] and [ciq_remap] return. *)
Theorem main_exit_status (w : World) (k : Z) :
  ((exists files, main w k = Returned (1, files)) <->
     malloc_ctx_ok w = false \/ input_file w = None \/
     (exists file, input_file w = Some file /\
        (format file <> "P6"%string \/ maxval file <> 255)) \/
     malloc_points_ok w = false \/ malloc_centroids_ok w = false) /\
  (forall files, main w k = Returned (1, files) -> files = mkFiles None None) /\
  (main w k = Trapped <->
     exists file, input_file w = Some file /\ ciq_init w k <> None /\
       malloc_distances_ok w = true /\
       to_int (hdr_width file * hdr_height file) = 0) /\
  (forall st files, main w k = Returned (st, files) -> st = 1 \/ st = 0).
Proof.
  rewrite <- (ciq_init_none_iff w k).
  unfold main, ciq_quanization.
  destruct (ciq_init w k) as [ctx|] eqn:Hinit.
  - destruct (ciq_init_some w k ctx Hinit)
      as (file & Hfile & _ & _ & _ & _ & Hsize & _).
    pose proof (ciq_quantize_trapped w ctx) as Ht.
    destruct (ciq_quantize w ctx) as [[res ctx']|].
    + split; [split; [intros [files H]; discriminate H | discriminate]|].
      split; [intros files H; discriminate H|].
      split; [split; [discriminate|]|].
      * intros (file' & Hfile' & _ & Hd & Hz).
        assert (Hsame : file' = file) by congruence. subst file'.
        assert (HT : @Returned (bool * Context) (res, ctx') = Trapped)
          by (apply Ht; split; [exact Hd|]; rewrite Hsize; exact Hz).
        discriminate HT.
      * intros st files H. inversion H. right. reflexivity.
    + split; [split; [intros [files H]; discriminate H | discriminate]|].
      split; [intros files H; discriminate H|].
      split; [|intros st files H; discriminate H].
      split; [intros _ | reflexivity].
      destruct (proj1 Ht eq_refl) as [Hd Hz].
      exists file. split; [exact Hfile|]. split; [discriminate|].
      split; [exact Hd | rewrite <- Hsize; exact Hz].
  - split; [split; [reflexivity | intros _; eexists; reflexivity]|].
    split; [intros files H; inversion H; reflexivity|].
    split; [split; [discriminate|]|].
    + intros (file & _ & Hne & _). contradiction.
    + intros st files H. inversion H. left. reflexivity.
Qed.

(** X19: without arguments for both files [main] returns 1 and writes
    nothing; with two arguments and no third, [K] is 256, and once the load
    succeeds on an image whose [size] is not 0 and both files are opened,
    the run returns 0 and the palette written has 256 entries, 768 bytes,
    whether or not the seeding succeeded. *)
Theorem main_argv_default_palette (atoi : string -> Z) (w : World)
    (input output : string) (ctx0 : Context) :
  ciq_init w 256 = Some ctx0 -> size ctx0 <> 0 ->
  fopen_output_ok w = true -> fopen_palette_ok w = true ->
  main_argv atoi w [] = Returned (1, mkFiles None None) /\
  main_argv atoi w [input] = Returned (1, mkFiles None None) /\
  exists (files : Files) (pal : list Z),
    main_argv atoi w [input; output] = Returned (0, files) /\
    palette files = Some pal /\ length pal = 768%nat.
Proof.
  intros Hinit Hsz Hout Hpal.
  split; [reflexivity|]. split; [reflexivity|].
  unfold main_argv, main, ciq_quanization. rewrite Hinit.
  pose proof (ciq_quantize_trapped w ctx0) as Ht.
  pose proof (ciq_quantize_frame w ctx0) as Hframe.
  destruct (ciq_quantize w ctx0) as [[res ctx']|];
    [|exfalso; apply Hsz; apply (proj1 Ht eq_refl)].
  exists (snd (ciq_remap w ctx')), (palette_of ctx').
  split; [reflexivity|].
  unfold ciq_remap. rewrite Hout, Hpal. cbn [negb snd palette].
  split; [reflexivity|].
  unfold palette_of.
  rewrite (flat_map_length3 rgb_bytes rgb_bytes_length).
  destruct (Hframe res ctx' eq_refl) as (_ & _ & _ & _ & _ & ->).
  destruct (ciq_init_some w 256 ctx0 Hinit)
    as (file & _ & _ & _ & _ & _ & _ & _ & _ & ->).
  reflexivity.
Qed.

Lemma main_argv_default_palette_witness :
  ciq_init Cases.truncated 256 =
    Some (mkContext 2 1 2 256 [mkPoint 7 8 9 (-1); mkPoint 7 8 9 (-1)]
            (repeat zero_point 256)) /\
  size (mkContext 2 1 2 256 [mkPoint 7 8 9 (-1); mkPoint 7 8 9 (-1)]
          (repeat zero_point 256)) <> 0 /\
  fopen_output_ok Cases.truncated = true /\
  fopen_palette_ok Cases.truncated = true /\
  exists (files : Files) (pal : list Z),
    main_argv (fun _ => 0) Cases.truncated ["in.ppm"%string; "out.ppm"%string]
      = Returned (0, files) /\
    palette files = Some pal /\ length pal = 768%nat.
Proof.
  assert (H1 : ciq_init Cases.truncated 256 =
    Some (mkContext 2 1 2 256 [mkPoint 7 8 9 (-1); mkPoint 7 8 9 (-1)]
            (repeat zero_point 256))) by reflexivity.
  assert (H0 : size (mkContext 2 1 2 256
                       [mkPoint 7 8 9 (-1); mkPoint 7 8 9 (-1)]
                       (repeat zero_point 256)) <> 0)
    by (simpl; lia).
  assert (H2 : fopen_output_ok Cases.truncated = true) by reflexivity.
  assert (H3 : fopen_palette_ok Cases.truncated = true) by reflexivity.
  repeat (split; [assumption|]).
  exact (proj2 (proj2 (main_argv_default_palette (fun _ => 0) Cases.truncated
                         "in.ppm" "out.ppm" _ H1 H0 H2 H3))).
Defined.

(** ** Reads stay inside the arrays *)

(** X20: on a loaded image of at least one pixel and with a draw that is
    not negative, the Seeder reads no point and no centroid outside the
    arrays: the seeded context is the same in two worlds that agree on the
    draws, on [RAND_MAX] and on the allocation of the buffer, whatever
    else they hold. *)
Theorem seeder_depends_on_draws_only (w1 w2 : World) (ctx : Context) :
  wf_context ctx -> 1 <= size ctx -> 0 <= rand w1 0%nat ->
  (forall j, rand w1 j = rand w2 j) -> RAND_MAX w1 = RAND_MAX w2 ->
  malloc_distances_ok w1 = malloc_distances_ok w2 ->
  ciq_init_centroids w1 ctx = ciq_init_centroids w2 ctx.
Proof. apply seeding_reproducible. Qed.

Lemma seeder_depends_on_draws_only_witness :
  wf_context Runs.twins_loaded /\ 1 <= size Runs.twins_loaded /\
  0 <= rand (Runs.twins (fun _ => zero_point)) 0%nat /\
  (forall j, rand (Runs.twins (fun _ => zero_point)) j
             = rand (Runs.twins (fun _ => mkPoint 1 2 3 4)) j) /\
  RAND_MAX (Runs.twins (fun _ => zero_point))
    = RAND_MAX (Runs.twins (fun _ => mkPoint 1 2 3 4)) /\
  malloc_distances_ok (Runs.twins (fun _ => zero_point))
    = malloc_distances_ok (Runs.twins (fun _ => mkPoint 1 2 3 4)) /\
  ciq_init_centroids (Runs.twins (fun _ => zero_point)) Runs.twins_loaded
    = ciq_init_centroids (Runs.twins (fun _ => mkPoint 1 2 3 4))
        Runs.twins_loaded.
Proof.
  assert (H1 : wf_context Runs.twins_loaded) by (split; reflexivity).
  assert (H2 : 1 <= size Runs.twins_loaded) by (simpl; lia).
  assert (H3 : 0 <= rand (Runs.twins (fun _ => zero_point)) 0%nat)
    by (simpl; lia).
  assert (H4 : forall j, rand (Runs.twins (fun _ => zero_point)) j
             = rand (Runs.twins (fun _ => mkPoint 1 2 3 4)) j)
    by (intros j; reflexivity).
  assert (H5 : RAND_MAX (Runs.twins (fun _ => zero_point))
    = RAND_MAX (Runs.twins (fun _ => mkPoint 1 2 3 4))) by reflexivity.
  assert (H6 : malloc_distances_ok (Runs.twins (fun _ => zero_point))
    = malloc_distances_ok (Runs.twins (fun _ => mkPoint 1 2 3 4)))
    by reflexivity.
  repeat (split; [assumption|]).
  exact (seeder_depends_on_draws_only _ _ _ H1 H2 H3 H4 H5 H6).
Defined.

(** X21: when every label is an index, [ciq_remap] reads no centroid
    outside the array: the image and the palette it writes are the same in
    any two worlds. *)
Theorem remap_reads_within_bounds (w1 w2 : World) (ctx : Context) :
  wf_context ctx -> labelled ctx ->
  image_of w1 ctx = image_of w2 ctx.
Proof.
  intros [_ Hk] Hlab. unfold image_of. f_equal.
  apply flat_map_ext_in. intros p Hp. unfold pixel_bytes. f_equal.
  unfold labelled in Hlab. rewrite List.Forall_forall in Hlab.
  specialize (Hlab p Hp). rewrite <- Hk in Hlab.
  pose proof (at_index_lookup (centroids ctx) _ (indet_read w1) Hlab) as E1.
  pose proof (at_index_lookup (centroids ctx) _ (indet_read w2) Hlab) as E2.
  rewrite E1 in E2. injection E2 as E2. exact E2.
Qed.

Lemma remap_reads_within_bounds_witness :
  wf_context Runs.twins_assigned /\ labelled Runs.twins_assigned /\
  image_of (Runs.seeder_fails (mkPoint 1 2 3 4)) Runs.twins_assigned
    = image_of Cases.truncated Runs.twins_assigned.
Proof.
  assert (H1 : wf_context Runs.twins_assigned) by (split; reflexivity).
  assert (H2 : labelled Runs.twins_assigned).
  { unfold labelled. simpl.
    repeat (constructor; [simpl; lia|]). constructor. }
  split; [exact H1|]. split; [exact H2|].
  exact (remap_reads_within_bounds _ _ _ H1 H2).
Defined.

(** ** The labels of the result *)



